(** * A shallow embedding of the analysis engine of [code_auditor.py]

    The development follows the class [CodebaseAuditor]: file discovery
    ([_discover_files]), per-file analysis ([_analyze_file]), import
    resolution ([_add_dependency]) and the two report computations that
    carry analytical logic (the data-file kind of [generate_data_flow] and
    the average of [generate_summary_stats]).

    Conventions.
    - Python [str] values are [string]s, the bytes of their UTF-8 encoding;
      the examples are ASCII but for the warning sign of [_analyze_file] and
      one file name.
    - Python [dict]s and [set]s are stdpp's [gmap] and [gset]; Python lists
      stay lists, in insertion order.
    - The attributes of [self] form the record [auditor]; code that mutates
      [self] and may raise lives in the monad [M], where the state survives
      a raised exception, exactly as the attributes of [self] do.
    - [ast.parse] is not part of the repository: it is a parameter
      [parse : string -> option node], [None] standing for any exception it
      raises.
    - Standard output is not kept, but a [print] can fail: the record
      [runtime] says which texts standard output can encode, and gives the
      text of an exception. *)

From Stdlib Require Import String Ascii ZArith QArith.
From stdpp Require Import base gmap sets list strings sorting.

Local Set Warnings "-clear-no-such-hyp".

Local Open Scope string_scope.
Local Open Scope list_scope.
Local Open Scope nat_scope.

(** ** Python primitives on strings and lists *)

Module Py.

(** [s[:stop]] on a list; a negative [stop] counts from the end and a
    bound outside the list is clamped, never an error. *)
Definition slice_to {A} (stop : Z) (l : list A) : list A :=
  if (stop <? 0)%Z
  then take (Z.to_nat (Z.max 0 (Z.of_nat (length l) + stop))) l
  else take (Z.to_nat stop) l.

(** [s[:stop]] on a string. *)
Definition str_slice_to (stop : Z) (s : string) : string :=
  string_of_list_ascii (slice_to stop (list_ascii_of_string s)).

(** [s.startswith(p)]. *)
Definition startswith (s p : string) : bool := String.prefix p s.

(** [s.endswith(suffix)]. *)
Definition endswith (s suffix : string) : bool :=
  let n := String.length s in
  let m := String.length suffix in
  (m <=? n)%nat && String.eqb (String.substring (n - m) m s) suffix.

(** [s.endswith((x1, ..., xn))] with a tuple of suffixes. *)
Definition endswith_any (s : string) (suffixes : list string) : bool :=
  existsb (endswith s) suffixes.

(** [sub in s]: substring test. *)
Fixpoint str_in (sub s : string) : bool :=
  String.prefix sub s ||
  match s with
  | EmptyString => false
  | String _ s' => str_in sub s'
  end.

(** [sep.join(l)]. *)
Definition join (sep : string) (l : list string) : string :=
  String.concat sep l.

(** [s.split(c)] for a one-character separator: the accumulator [cur]
    holds the characters of the current piece, most recent first. *)
Fixpoint split_go (c : ascii) (cur : list ascii) (s : string) : list string :=
  match s with
  | EmptyString => [string_of_list_ascii (rev cur)]
  | String a s' =>
      if Ascii.eqb a c
      then string_of_list_ascii (rev cur) :: split_go c [] s'
      else split_go c (a :: cur) s'
  end.

Definition split (c : ascii) (s : string) : list string := split_go c [] s.

(** [s.replace(a, b)] for one-character [a] and [b]. *)
Fixpoint replace_char (a b : ascii) (s : string) : string :=
  match s with
  | EmptyString => EmptyString
  | String x s' => String (if Ascii.eqb x a then b else x) (replace_char a b s')
  end.

(** [s.lower()] on ASCII text: the letters A-Z are mapped to a-z. *)
Definition lower_char (a : ascii) : ascii :=
  let n := nat_of_ascii a in
  if (65 <=? n)%nat && (n <=? 90)%nat then ascii_of_nat (n + 32) else a.

Fixpoint lower (s : string) : string :=
  match s with
  | EmptyString => EmptyString
  | String a s' => String (lower_char a) (lower s')
  end.

(** Truth value of a string: the empty string is falsy. *)
Definition truthy (s : string) : bool :=
  match s with EmptyString => false | _ => true end.

End Py.

(** ** Syntax trees: the part of Python's [ast] the auditor looks at *)

(** [ast.alias]: one name of an import statement. *)
Record alias := { alias_name : string; asname : option string }.

(** The node classes [_analyze_file] dispatches on are constructors of their
    own, with their child nodes in the order of the class's [_fields], and so
    are their asynchronous and starred relatives ([AsyncFunctionDef] for
    [async def], [AsyncFor], [AsyncWith], [TryStar] for [try] with
    [except*]), which are classes of their own in [ast] and not subclasses
    of the former. Every other class ([Pass], [Return], [Assign],
    expressions, [arguments], [ExceptHandler], ...) is [Other] with its child
    nodes. Neighbouring fields that hold expressions only are kept as one
    list: [bases] of a class also holds its keywords, and a [decorator_list]
    also holds what follows it (return annotation, type parameters). [level]
    of [ImportFrom] is the number of leading dots. *)
#[warnings="-register-all"]
Inductive node : Type :=
| Module_ (body : list node)
| FunctionDef (name : string) (args : node) (body : list node)
    (decorator_list : list node)
| ClassDef (name : string) (bases : list node) (body : list node)
    (decorator_list : list node)
| Import (names : list alias)
| ImportFrom (module : option string) (names : list alias) (level : nat)
| If (test : node) (body : list node) (orelse : list node)
| For (target : node) (iter : node) (body : list node) (orelse : list node)
| While (test : node) (body : list node) (orelse : list node)
| Try (body : list node) (handlers : list node) (orelse : list node)
    (finalbody : list node)
| With (items : list node) (body : list node)
| AsyncFunctionDef (name : string) (args : node) (body : list node)
    (decorator_list : list node)
| AsyncFor (target : node) (iter : node) (body : list node)
    (orelse : list node)
| AsyncWith (items : list node) (body : list node)
| TryStar (body : list node) (handlers : list node) (orelse : list node)
    (finalbody : list node)
| AliasNode (a : alias)
| Other (children : list node).

(** [ast.iter_child_nodes]. *)
Definition iter_child_nodes (n : node) : list node :=
  match n with
  | Module_ body => body
  | FunctionDef _ args body decorator_list => args :: body ++ decorator_list
  | ClassDef _ bases body decorator_list => bases ++ body ++ decorator_list
  | Import names => map AliasNode names
  | ImportFrom _ names _ => map AliasNode names
  | If test body orelse => test :: body ++ orelse
  | For target iter body orelse => target :: iter :: body ++ orelse
  | While test body orelse => test :: body ++ orelse
  | Try body handlers orelse finalbody =>
      body ++ handlers ++ orelse ++ finalbody
  | With items body => items ++ body
  | AsyncFunctionDef _ args body decorator_list =>
      args :: body ++ decorator_list
  | AsyncFor target iter body orelse => target :: iter :: body ++ orelse
  | AsyncWith items body => items ++ body
  | TryStar body handlers orelse finalbody =>
      body ++ handlers ++ orelse ++ finalbody
  | AliasNode _ => []
  | Other children => children
  end.

(** The one structural recursion over [node]: [fold_node f n] applies [f]
    to [n] and to the results for its children. *)
Fixpoint fold_node {A} (f : node -> list A -> A) (n : node) : A :=
  f n
    match n with
    | Module_ body => map (fold_node f) body
    | FunctionDef _ args body decorator_list =>
        fold_node f args :: map (fold_node f) body
          ++ map (fold_node f) decorator_list
    | ClassDef _ bases body decorator_list =>
        map (fold_node f) bases ++ map (fold_node f) body
          ++ map (fold_node f) decorator_list
    | Import names => map (fun a => f (AliasNode a) []) names
    | ImportFrom _ names _ => map (fun a => f (AliasNode a) []) names
    | If test body orelse =>
        fold_node f test :: map (fold_node f) body ++ map (fold_node f) orelse
    | For target iter body orelse =>
        fold_node f target :: fold_node f iter :: map (fold_node f) body
          ++ map (fold_node f) orelse
    | While test body orelse =>
        fold_node f test :: map (fold_node f) body ++ map (fold_node f) orelse
    | Try body handlers orelse finalbody =>
        map (fold_node f) body ++ map (fold_node f) handlers
          ++ map (fold_node f) orelse ++ map (fold_node f) finalbody
    | With items body => map (fold_node f) items ++ map (fold_node f) body
    | AsyncFunctionDef _ args body decorator_list =>
        fold_node f args :: map (fold_node f) body
          ++ map (fold_node f) decorator_list
    | AsyncFor target iter body orelse =>
        fold_node f target :: fold_node f iter :: map (fold_node f) body
          ++ map (fold_node f) orelse
    | AsyncWith items body =>
        map (fold_node f) items ++ map (fold_node f) body
    | TryStar body handlers orelse finalbody =>
        map (fold_node f) body ++ map (fold_node f) handlers
          ++ map (fold_node f) orelse ++ map (fold_node f) finalbody
    | AliasNode _ => []
    | Other children => map (fold_node f) children
    end.

(** Number of nodes of a tree. *)
Definition node_size : node -> nat :=
  fold_node (fun _ sizes => S (list_sum sizes)).

(** The nodes of a tree, root first, depth first. *)
Definition subnodes : node -> list node :=
  fold_node (fun n subs => n :: concat subs).

(** [ast.walk]: a queue holds the nodes still to visit; the first is taken
    out, its children are appended at the end and it is yielded. [fuel]
    bounds the number of iterations of the [while todo] loop. *)
Fixpoint walk_queue (fuel : nat) (todo : list node) : list node :=
  match fuel, todo with
  | S fuel', n :: rest => n :: walk_queue fuel' (rest ++ iter_child_nodes n)
  | _, _ => []
  end.

Definition walk (n : node) : list node := walk_queue (node_size n) [n].

(** [isinstance(n, (ast.If, ast.For, ast.While, ast.Try, ast.With))]. *)
Definition is_branch (n : node) : bool :=
  match n with
  | If _ _ _ | For _ _ _ _ | While _ _ _ | Try _ _ _ _ | With _ _ => true
  | _ => false
  end.

(** [sum(1 for n in l if isinstance(n, (...)))]. *)
Definition branch_count (l : list node) : nat :=
  list_sum (map (fun _ => 1) (filter (fun n' => is_branch n' = true) l)).

(** The complexity expression of [_analyze_file]:
    [sum(1 for n in ast.walk(node) if isinstance(n, (...))) + 1]. *)
Definition complexity_of (n : node) : nat := branch_count (walk n) + 1.

(** Number of branching nodes in a subtree, by recursion on the tree. *)
Definition count_branches : node -> nat :=
  fold_node (fun n counts => (if is_branch n then 1 else 0) + list_sum counts).

(** ** The file system under [root_dir] *)

(** A directory entry; [text] is what [open(...).read()] returns, [None] when
    opening or decoding the file raises. Entries are listed in the order in
    which the operating system reports them. *)
#[warnings="-register-all"]
Inductive fs_entry : Type :=
| File (name : string) (text : option string)
| Dir (name : string) (entries : list fs_entry).

(** Paths are relative to [root_dir] and kept as their segments. *)
Abbreviation path := (list string).

Definition file_names (entries : list fs_entry) : list string :=
  flat_map (fun e => match e with File f _ => [f] | Dir _ _ => [] end) entries.

(** [os.walk(top)], top down: a directory is reported with its files, then
    its sub-directories are walked in order. The caller of [os.walk] prunes
    the list of sub-directories in place before the generator resumes; [keep]
    is that filter. The result lists [(root, files)] pairs. *)
Fixpoint os_walk_entry (keep : string -> bool) (root : path) (e : fs_entry)
  : list (path * list string) :=
  match e with
  | File _ _ => []
  | Dir d entries =>
      if keep d
      then (root ++ [d], file_names entries)
             :: flat_map (os_walk_entry keep (root ++ [d])) entries
      else []
  end.

Definition os_walk (keep : string -> bool) (top : list fs_entry)
  : list (path * list string) :=
  ([], file_names top) :: flat_map (os_walk_entry keep []) top.

(** [open(file_path).read()]. *)
Fixpoint read_text (top : list fs_entry) (p : path) : option string :=
  match p with
  | [] => None
  | seg :: p' =>
      (fix find (es : list fs_entry) : option string :=
         match es with
         | [] => None
         | File f text :: es' =>
             if String.eqb f seg
             then match p' with [] => text | _ => None end
             else find es'
         | Dir d sub :: es' =>
             if String.eqb d seg
             then match p' with [] => None | _ => read_text sub p' end
             else find es'
         end) top
  end.

(** ** The auditor's state and its monad *)

(** The values of [self.functions] and [self.classes]. *)
Record function_record := { complexity : nat }.
Record class_record := { methods : list string; is_strategy : bool }.

(** The attributes of a [CodebaseAuditor]. [dependencies] is a
    [defaultdict(set)]: a missing key reads as the empty set. *)
Record auditor := {
  python_files : list path;
  project_modules : gset string;
  functions : gmap string function_record;
  classes : gmap string class_record;
  main_entry_points : list string;
  dependencies : gmap string (gset string);
  data_files : list path
}.

(** [CodebaseAuditor.__init__]. *)
Definition init : auditor :=
  {| python_files := []; project_modules := ∅; functions := ∅; classes := ∅;
     main_entry_points := []; dependencies := ∅; data_files := [] |}.

Definition add_python_file (p : path) (module_name : string) (st : auditor) :=
  {| python_files := python_files st ++ [p];
     project_modules := {[module_name]} ∪ project_modules st;
     functions := functions st; classes := classes st;
     main_entry_points := main_entry_points st;
     dependencies := dependencies st; data_files := data_files st |}.

Definition add_data_file (p : path) (st : auditor) :=
  {| python_files := python_files st; project_modules := project_modules st;
     functions := functions st; classes := classes st;
     main_entry_points := main_entry_points st;
     dependencies := dependencies st; data_files := data_files st ++ [p] |}.

Definition set_function (key : string) (r : function_record) (st : auditor) :=
  {| python_files := python_files st; project_modules := project_modules st;
     functions := <[key := r]> (functions st); classes := classes st;
     main_entry_points := main_entry_points st;
     dependencies := dependencies st; data_files := data_files st |}.

Definition set_class (key : string) (r : class_record) (st : auditor) :=
  {| python_files := python_files st; project_modules := project_modules st;
     functions := functions st; classes := <[key := r]> (classes st);
     main_entry_points := main_entry_points st;
     dependencies := dependencies st; data_files := data_files st |}.

Definition add_entry_point (module_name : string) (st : auditor) :=
  {| python_files := python_files st; project_modules := project_modules st;
     functions := functions st; classes := classes st;
     main_entry_points := main_entry_points st ++ [module_name];
     dependencies := dependencies st; data_files := data_files st |}.

(** [self.dependencies[key].add(target)]. *)
Definition add_edge (key target : string) (st : auditor) :=
  {| python_files := python_files st; project_modules := project_modules st;
     functions := functions st; classes := classes st;
     main_entry_points := main_entry_points st;
     dependencies :=
       <[key := {[target]} ∪ default ∅ (dependencies st !! key)]> (dependencies st);
     data_files := data_files st |}.

(** [self.dependencies[key]] read through the [defaultdict]. *)
Definition deps_of (st : auditor) (key : string) : gset string :=
  default ∅ (dependencies st !! key).

(** The exceptions the analysis can meet, all of them subclasses of
    [Exception]: [OSError] stands for whatever [open] and [read] raise,
    [SyntaxError] for whatever [ast.parse] raises, [UnicodeEncodeError] is
    what [print] raises when standard output cannot encode its text. *)
Inductive exn := OSError | SyntaxError | ZeroDivisionError | UnicodeEncodeError.

Inductive outcome (A : Type) : Type :=
| Returned (a : A)
| Raised (e : exn).
Arguments Returned {A} a.
Arguments Raised {A} e.

(** A computation on the auditor: it returns or raises, and in both cases
    leaves a state behind. *)
Definition M (A : Type) : Type := auditor -> outcome A * auditor.

Definition ret {A} (a : A) : M A := fun st => (Returned a, st).

Definition bind {A B} (m : M A) (k : A -> M B) : M B :=
  fun st =>
    match m st with
    | (Returned a, st') => k a st'
    | (Raised e, st') => (Raised e, st')
    end.

Definition raise {A} (e : exn) : M A := fun st => (Raised e, st).

Definition modify (f : auditor -> auditor) : M unit :=
  fun st => (Returned tt, f st).

Definition get : M auditor := fun st => (Returned st, st).

(** [try: body except Exception as e: handler(e)]. *)
Definition try_except {A} (body : M A) (handler : exn -> M A) : M A :=
  fun st =>
    match body st with
    | (Returned a, st') => (Returned a, st')
    | (Raised e, st') => handler e st'
    end.

Notation "x <- m ;; k" := (bind m (fun x => k))
  (at level 100, m at next level, right associativity).
Notation "m ;;; k" := (bind m (fun _ => k))
  (at level 100, right associativity).

(** [for x in l: body(x)]. *)
Fixpoint for_each {A} (l : list A) (body : A -> M unit) : M unit :=
  match l with
  | [] => ret tt
  | x :: l' => body x ;;; for_each l' body
  end.

(** [if c: body]. *)
Definition when (c : bool) (body : M unit) : M unit :=
  if c then body else ret tt.

(** What the Python runtime decides when a warning is printed: the text
    [str(e)] of the exception caught, and whether standard output can encode
    a given text. Neither is code of the repository. *)
Record runtime := {
  str_exn : exn -> string;
  stdout_encodes : string -> bool
}.

(** [print(text)]: the text written is not kept; when standard output
    cannot encode it the call raises. *)
Definition print (rt : runtime) (text : string) : M unit :=
  if stdout_encodes rt text then ret tt else raise UnicodeEncodeError.

(** The state a computation leaves behind. *)
Definition exec {A} (m : M A) (st : auditor) : auditor := snd (m st).

(** A computation that returns from every state. *)
Definition returns {A} (m : M A) : Prop :=
  ∀ st, ∃ a, fst (m st) = Returned a.

(** ** The methods of [CodebaseAuditor] *)

Definition excluded_dirs : list string :=
  ["__pycache__"; "_build"; ".pytest_cache"; ".venv"].

(** [d not in ['__pycache__', ...]]: the sub-directories [_discover_files]
    keeps. *)
Definition keep_dir (d : string) : bool := negb (bool_decide (d ∈ excluded_dirs)).

Definition data_extensions : list string := [".csv"; ".xlsx"; ".json"; ".yaml"].

(** The text [if __name__ == "__main__"], with double quotes. *)
Definition main_guard : string :=
  "if __name__ == " +:+ String (ascii_of_nat 34) "__main__"
    +:+ String (ascii_of_nat 34) EmptyString.

(** [str(relative_path).replace(os.sep, '.')[:-3]]. *)
Definition module_name_of (relative_path : path) : string :=
  Py.str_slice_to (-3) (Py.replace_char "/" "." (Py.join "/" relative_path)).

(** The key of a record: the f-string [{module_name}.{node.name}]. *)
Definition record_key (module_name name : string) : string :=
  module_name +:+ "." +:+ name.

(** The target an import resolves to: the first half of [_add_dependency]. *)
Definition resolved_dep (module_name dep_name : string) (level : nat) : string :=
  if (0 <? level)%nat
  then
    let parts := Py.split "." module_name in
    let base := Py.slice_to (- Z.of_nat level) parts in
    Py.join "." (base ++ (if Py.truthy dep_name then [dep_name] else []))
  else dep_name.

(** [any(resolved.startswith(m) for m in self.project_modules if m == resolved)]. *)
Definition known_module (st : auditor) (resolved : string) : bool :=
  existsb (fun proj_mod => Py.startswith resolved proj_mod)
    (filter (fun proj_mod => proj_mod = resolved) (elements (project_modules st))).

Definition _add_dependency (module_name dep_name : string) (level : nat) : M unit :=
  let resolved := resolved_dep module_name dep_name level in
  st <- get ;;
  when (known_module st resolved) (modify (add_edge module_name resolved)).

(** [[item.name for item in body if isinstance(item, ast.FunctionDef)]]. *)
Definition method_names (body : list node) : list string :=
  flat_map (fun item =>
              match item with FunctionDef name _ _ _ => [name] | _ => [] end) body.

(** The flag stored under ['is_strategy']. *)
Definition strategy_flag (class_name module_name : string) : bool :=
  Py.str_in "strategy" (Py.lower class_name) || Py.str_in "strategies" module_name.

(** The body of the loop [for node in ast.walk(tree)]. *)
Definition analyze_node (module_name : string) (n : node) : M unit :=
  match n with
  | FunctionDef name _ _ _ =>
      let func_name := record_key module_name name in
      modify (set_function func_name {| complexity := complexity_of n |})
  | ClassDef name _ body _ =>
      let class_name := record_key module_name name in
      modify (set_class class_name
                {| methods := method_names body;
                   is_strategy := strategy_flag name module_name |})
  | Import names =>
      for_each names (fun a => _add_dependency module_name (alias_name a) 0)
  | ImportFrom module _ level =>
      match module with
      | Some m => when (Py.truthy m) (_add_dependency module_name m level)
      | None => ret tt
      end
  | _ => ret tt
  end.

(** [generate_data_flow]: the kind shown for a data file named [name]. *)
Definition file_type (name : string) : string :=
  if Py.str_in ".csv" name then "Tabular Data"
  else if Py.str_in ".xlsx" name then "Excel Sheet"
  else if Py.str_in ".yaml" name then "Config"
  else "JSON Data".

(** [Path.name]: the last segment. *)
Definition path_name (p : path) : string := default EmptyString (last p).

(** The rows of the table of [generate_data_flow]: the relative path
    between backticks, and the kind. *)
Definition data_flow_rows (st : auditor) : list (string * string) :=
  map (fun file => ("`" +:+ Py.join "/" file +:+ "`", file_type (path_name file)))
    (data_files st).

(** Python numbers as [generate_summary_stats] meets them: the literal [0]
    is an [int]; [/] yields a [float], kept here as the exact quotient. *)
Inductive py_number := PyInt (z : Z) | PyFloat (q : Q).

(** [a / b] on integers. *)
Definition truediv (a b : nat) : M py_number :=
  match b with
  | O => raise ZeroDivisionError
  | S _ => ret (PyFloat (Z.of_nat a # Pos.of_nat b))
  end.

(** [avg_complexity] of [generate_summary_stats]. *)
Definition avg_complexity : M py_number :=
  st <- get ;;
  let total_funcs := size (functions st) in
  if (0 <? total_funcs)%nat
  then truediv (list_sum (map (fun kv => complexity (snd kv))
                            (map_to_list (functions st)))) total_funcs
  else ret (PyInt 0).

Section Auditor.

(** The tree under [root_dir], Python's parser and the runtime. *)
Variable top : list fs_entry.
Variable parse : string -> option node.
Variable rt : runtime.

Definition discover_file (root : path) (file : string) : M unit :=
  let file_path := root ++ [file] in
  if Py.endswith file ".py"
  then modify (add_python_file file_path (module_name_of file_path))
  else when (Py.endswith_any file data_extensions)
         (modify (add_data_file file_path)).

Definition _discover_files : M unit :=
  for_each (os_walk keep_dir top)
    (fun entry => for_each (snd entry) (discover_file (fst entry))).

Definition open_read (file_path : path) : M string :=
  match read_text top file_path with
  | Some content => ret content
  | None => raise OSError
  end.

Definition ast_parse (content : string) : M node :=
  match parse content with
  | Some tree => ret tree
  | None => raise SyntaxError
  end.

(** The text of the warning: the f-string of the handler, with the
    relative path and [str(e)]. *)
Definition warning_text (relative_path : path) (e : exn) : string :=
  "   - ⚠️  Errore nell'analisi di " +:+ Py.join "/" relative_path
    +:+ ": " +:+ str_exn rt e.

(** The handler prints the warning, outside any [try]. *)
Definition _analyze_file (file_path : path) : M unit :=
  let module_name := module_name_of file_path in
  try_except
    (content <- open_read file_path ;;
     tree <- ast_parse content ;;
     when (Py.str_in main_guard content)
       (modify (add_entry_point module_name)) ;;;
     for_each (walk tree) (analyze_node module_name))
    (fun e => print rt (warning_text file_path e)).

(** The analysis pass of [run]: discovery, then every discovered file. The
    progress messages [run] prints around these steps and the report it
    writes after them are left out. *)
Definition run : M unit :=
  _discover_files ;;;
  st <- get ;;
  for_each (python_files st) _analyze_file.

End Auditor.

(** ** Concrete projects used in examples *)

Module Scenario.

Definition nl : string := String (ascii_of_nat 10) EmptyString.

(** Leaves: an [arguments] node without parameters, the constant [True],
    a [pass] statement. *)
Definition no_arguments : node := Other [].
Definition const_true : node := Other [].
Definition pass_stmt : node := Other [].

(** [pkg/a.py]: a function [f] whose body is [if True: pass]. *)
Definition text_a : string :=
  "def f():" +:+ nl +:+ "    if True:" +:+ nl +:+ "        pass" +:+ nl.

Definition def_f : node :=
  FunctionDef "f" no_arguments [If const_true [pass_stmt] []] [].

Definition tree_a : node := Module_ [def_f].

(** [pkg/b.py]: [from . import a]; the statement has no module name and
    level 1. *)
Definition text_b : string := "from . import a" +:+ nl.

Definition tree_b : node :=
  Module_ [ImportFrom None [{| alias_name := "a"; asname := None |}] 1].

Definition top : list fs_entry :=
  [Dir "pkg" [File "a.py" (Some text_a); File "b.py" (Some text_b)]].

(** The same directory listed in the other order. *)
Definition top' : list fs_entry :=
  [Dir "pkg" [File "b.py" (Some text_b); File "a.py" (Some text_a)]].

Definition parse (s : string) : option node :=
  if String.eqb s text_a then Some tree_a
  else if String.eqb s text_b then Some tree_b
  else None.

(** [mod.py]: two classes, each with a method [m]; only the second
    method branches. *)
Definition text_dup : string :=
  "class A:" +:+ nl +:+ "    def m():" +:+ nl +:+ "        pass" +:+ nl
  +:+ "class B:" +:+ nl +:+ "    def m():" +:+ nl
  +:+ "        if True:" +:+ nl +:+ "            pass" +:+ nl.

Definition def_m_A : node := FunctionDef "m" no_arguments [pass_stmt] [].
Definition def_m_B : node :=
  FunctionDef "m" no_arguments [If const_true [pass_stmt] []] [].

Definition tree_dup : node :=
  Module_ [ClassDef "A" [] [def_m_A] []; ClassDef "B" [] [def_m_B] []].

Definition top_dup : list fs_entry := [File "mod.py" (Some text_dup)].

Definition parse_dup (s : string) : option node :=
  if String.eqb s text_dup then Some tree_dup else None.

End Scenario.

(** ** Definitions used in the statements *)

Definition queue_size (todo : list node) : nat :=
  list_sum (map node_size todo).

(** [c] occurs in the subtree of [n], [n] itself included. *)
Definition in_subtree (c n : node) : Prop := c ∈ subnodes n.

(** What [_add_dependency] leaves alone. *)
Definition same_but_dependencies (st st' : auditor) : Prop :=
  python_files st' = python_files st
  ∧ project_modules st' = project_modules st
  ∧ functions st' = functions st
  ∧ classes st' = classes st
  ∧ main_entry_points st' = main_entry_points st
  ∧ data_files st' = data_files st.

(** The loop [for node in ast.walk(tree)] as a fold. *)
Definition analyze_nodes (module_name : string) (l : list node) (st : auditor)
  : auditor :=
  fold_left (λ s n, exec (analyze_node module_name n) s) l st.

Definition analyze_tree (module_name : string) (tree : node) (st : auditor)
  : auditor :=
  analyze_nodes module_name (walk tree) st.

(** [true] exactly on the definitions of a function called [name]. *)
Definition defines (name : string) (n : node) : bool :=
  match n with
  | FunctionDef name' _ _ _ => String.eqb name name'
  | _ => false
  end.

(** The flag as the specification words it: the lower-cased class name
    contains strategy or strategies, or strategies is one of the dotted
    components of the module. *)
Definition spec_is_strategy (class_name module_name : string) : bool :=
  Py.str_in "strategy" (Py.lower class_name)
  || Py.str_in "strategies" (Py.lower class_name)
  || bool_decide ("strategies" ∈ Py.split "." module_name).

Definition helper_in_strategies_tree : node :=
  Module_ [ClassDef "Helper" [] [Scenario.pass_stmt] []].

(** The files on which [open], [read] and [ast.parse] all succeed. *)
Definition parses (top : list fs_entry) (parse : string → option node)
    (p : path) : bool :=
  match read_text top p with
  | Some content => match parse content with Some _ => true | None => false end
  | None => false
  end.

(** The loop [for file_path in self.python_files] as a fold, when no call
    raises. *)
Definition analyze_files (top : list fs_entry) (parse : string → option node)
    (rt : runtime) (files : list path) (st : auditor) : auditor :=
  fold_left (λ s p, exec (_analyze_file top parse rt p) s) files st.

(** The exception the [try] of [_analyze_file] catches for a file, if
    any. *)
Definition failure (top : list fs_entry) (parse : string → option node)
    (p : path) : option exn :=
  match read_text top p with
  | Some content =>
      match parse content with Some _ => None | None => Some SyntaxError end
  | None => Some OSError
  end.

(** The warning of the file, if it has one, can be written. *)
Definition warning_printed (top : list fs_entry) (parse : string → option node)
    (rt : runtime) (p : path) : bool :=
  match failure top parse p with
  | Some e => stdout_encodes rt (warning_text rt p e)
  | None => true
  end.

(** Two standard outputs for the examples, with the same exception texts.
    The first is a UTF-8 stream with the strict error handler, what Python
    gives on a UTF-8 terminal: a file name with a byte that is not UTF-8 (255
    never is) reaches Python as a lone surrogate, which the stream cannot
    encode; every other text is written. The second replaces what it cannot
    encode, as under [PYTHONIOENCODING=utf-8:backslashreplace], and writes
    every text. *)
Definition sample_str_exn (e : exn) : string :=
  match e with
  | OSError => "[Errno 13] Permission denied"
  | SyntaxError => "invalid syntax (<unknown>, line 1)"
  | ZeroDivisionError => "division by zero"
  | UnicodeEncodeError => "surrogates not allowed"
  end.

Definition byte_255 : string := String (ascii_of_nat 255) EmptyString.

Definition utf8_terminal : runtime :=
  {| str_exn := sample_str_exn;
     stdout_encodes := λ text, negb (Py.str_in byte_255 text) |}.







(** A project whose only file holds the guard text alone, which is not a
    complete statement: the parser rejects it. *)
Definition top_guard_only : list fs_entry := [File "m.py" (Some main_guard)].

Definition parse_rejecting (s : string) : option node := None.

(** The target of an import as the specification resolves it: at level 0
    the raw target; at a level above 0 the dotted segments of the source
    module without the last [level] of them, joined with the raw target, or
    joined alone when the raw target is empty. *)
Definition spec_resolved (source target : string) (level : nat) : string :=
  match level with
  | 0 => target
  | _ =>
      let segs := Py.split "." source in
      let base := take (length segs - level) segs in
      if decide (target = EmptyString) then Py.join "." base
      else Py.join "." (base ++ [target])
  end.

(** The resolved targets of an import statement in the specification's
    reading: one for each name of a plain import; one for a from-import, whose
    raw target is its module name, empty when it has none. *)
Definition spec_import_targets (source : string) (n : node) : list string :=
  match n with
  | Import names => map (λ al, spec_resolved source (alias_name al) 0) names
  | ImportFrom module _ level =>
      [spec_resolved source (default EmptyString module) level]
  | _ => []
  end.

(** A project made of [a.py], [a/b.py] and [a/x.py]; the second holds
    [from . import x], a from-import without module name at level 1. *)
Definition text_from_dot : string := "from . import x" +:+ Scenario.nl.

Definition import_from_dot : node :=
  ImportFrom None [{| alias_name := "x"; asname := None |}] 1.

Definition tree_from_dot : node := Module_ [import_from_dot].

Definition top_ab : list fs_entry :=
  [File "a.py" (Some Scenario.text_a);
   Dir "a" [File "b.py" (Some text_from_dot);
            File "x.py" (Some Scenario.text_a)]].

Definition parse_ab (s : string) : option node :=
  if String.eqb s Scenario.text_a then Some Scenario.tree_a
  else if String.eqb s text_from_dot then Some tree_from_dot
  else None.

(** A project made of [a.py], [a/x.py] and [a/b/c.py], and the statement
    [from .. import x] of [a/b/c.py]. *)
Definition top_abc : list fs_entry :=
  [File "a.py" (Some Scenario.text_a);
   Dir "a" [File "x.py" (Some Scenario.text_a);
            Dir "b" [File "c.py" None]]].

Definition import_from_dotdot : node :=
  ImportFrom None [{| alias_name := "x"; asname := None |}] 2.

(** A project whose only module is [pkg.a]. *)
Definition only_pkg_a : auditor :=
  add_python_file ["pkg"; "a.py"] "pkg.a" init.

(** The text [s] has no occurrence of the character [c]. *)
Definition lacks (c : ascii) (s : string) : Prop :=
  Py.str_in (String c EmptyString) s = false.

(** The kind of a data file as the specification words it: tabular, then
    spreadsheet, then structured data, then config. *)
Definition spec_file_type (name : string) : string :=
  if Py.str_in ".csv" name then "Tabular Data"
  else if Py.str_in ".xlsx" name then "Excel Sheet"
  else if Py.str_in ".json" name then "JSON Data"
  else "Config".

(** ** The report computations *)

(** [sorted(l)] on strings: Python compares strings by code point, which on
    their bytes is the order of [String.le]; on a total order the sorted
    list is unique, whatever the algorithm. *)
Definition py_sorted (l : list string) : list string := merge_sort String.le l.

(** The files [os.walk] reports, in its order, as paths. *)
Definition walked_files (top : list fs_entry) : list path :=
  flat_map (λ entry, map (λ file, fst entry ++ [file]) (snd entry))
    (os_walk keep_dir top).

(** The two tests of [_discover_files] on a file name. *)
Definition is_python_file (p : path) : Prop :=
  Py.endswith (path_name p) ".py" = true.

Definition is_data_file (p : path) : Prop :=
  Py.endswith (path_name p) ".py" = false
  ∧ Py.endswith_any (path_name p) data_extensions = true.

(** The chain of tests of [generate_architecture_overview]: the component a
    module is listed under. *)
Definition component_of (module : string) : string :=
  if Py.startswith module "pages" then "🖥️ User Interface (Streamlit Pages)"
  else if Py.startswith module "src.strategies" then "🧠 Optimization Strategies"
  else if Py.str_in "pipeline" module || Py.str_in "run" module
  then "⚙️ Business Logic / Pipelines"
  else if Py.startswith module "src.models" || Py.startswith module "src.schemas"
  then "🧱 Data Models & Schemas"
  else if Py.startswith module "src.data_" then "💾 Data Processing"
  else if Py.startswith module "src.utils" then "🛠️ Support Utilities"
  else if Py.startswith module "src.config" then "⚙️ Configuration"
  else if Py.startswith module "tests" then "✅ Tests"
  else if String.eqb module "app" then "🚀 Main Entry Point"
  else "🧩 Other Components".

(** [components[name].append(module)] on the [defaultdict(list)]. *)
Definition add_to_component (components : gmap string (list string))
    (module : string) : gmap string (list string) :=
  <[component_of module :=
      default [] (components !! component_of module) ++ [module]]> components.

(** The dictionary [components] of [generate_architecture_overview]; the set
    of modules is iterated in the order of [elements]. *)
Definition architecture_components (st : auditor) : gmap string (list string) :=
  fold_left add_to_component (elements (project_modules st)) ∅.

(** The sections of the overview, from the loop over
    [sorted(components.items())]: component name, number of modules, sorted
    modules. *)
Definition architecture_sections (st : auditor)
  : list (string * nat * list string) :=
  map (λ name,
         let modules := default [] (architecture_components st !! name) in
         (name, length modules, py_sorted modules))
    (py_sorted (elements (dom (architecture_components st)))).

(** [sorted(list(set(['app'] + self.main_entry_points)))]. *)
Definition entry_points (st : auditor) : list string :=
  py_sorted (elements (list_to_set ("app" :: main_entry_points st) : gset string)).

(** [[c for c, v in self.classes.items() if v['is_strategy']]]. *)
Definition strategies (st : auditor) : list string :=
  map fst (filter (λ kv, is_strategy (snd kv) = true) (map_to_list (classes st))).

(** [", ".join(methods[:4]) + ('...' if len(methods) > 4 else '')]. *)
Definition key_methods (methods : list string) : string :=
  Py.join ", " (Py.slice_to 4 methods)
  +:+ (if 4 <? length methods then "..." else EmptyString).

(** The rows of the table of strategies, one per element of
    [sorted(strategies)]. *)
Definition strategy_rows (st : auditor) : list (string * string) :=
  map (λ s, ("`" +:+ s +:+ "`",
             key_methods (default [] (methods <$> classes st !! s))))
    (py_sorted (strategies st)).

(** ['pipeline' in f or 'run' in f or 'solve' in f]. *)
Definition is_pipeline_key (f : string) : bool :=
  Py.str_in "pipeline" f || Py.str_in "run" f || Py.str_in "solve" f.

(** [sorted(pipeline_funcs)]. *)
Definition pipeline_funcs (st : auditor) : list string :=
  py_sorted (filter (λ f, is_pipeline_key f = true)
               (map fst (map_to_list (functions st)))).

(** [any(w in f for w in ['load', 'save', 'process', 'read', 'write',
    'preprocess'])]. *)
Definition is_data_key (f : string) : bool :=
  existsb (λ w, Py.str_in w f)
    ["load"; "save"; "process"; "read"; "write"; "preprocess"].

(** [sorted(data_funcs)]. *)
Definition data_funcs (st : auditor) : list string :=
  py_sorted (filter (λ f, is_data_key f = true)
               (map fst (map_to_list (functions st)))).

(** The list [generate_dependency_report] shows under a module: its
    dependencies between backticks, sorted, or a placeholder when the set is
    empty. *)
Definition dependency_items (st : auditor) (module : string) : list string :=
  if decide (deps_of st module = ∅)
  then ["(No internal dependencies)"]
  else map (λ d, "`" +:+ d +:+ "`") (py_sorted (elements (deps_of st module))).

(** The textual dependency report: one entry per key of [dependencies], in
    sorted order. *)
Definition dependency_report (st : auditor) : list (string * list string) :=
  map (λ module, (module, dependency_items st module))
    (py_sorted (elements (dom (dependencies st)))).

(** The store the analysis keeps well formed: every dependency set is
    non-empty, made of project modules, and owned by a project module; every
    entry point is a project module; every function record has a complexity of
    at least 1. *)
Definition store_wf (st : auditor) : Prop :=
  (∀ a s, dependencies st !! a = Some s →
          s ≠ ∅ ∧ s ⊆ project_modules st ∧ a ∈ project_modules st)
  ∧ (∀ e, e ∈ main_entry_points st → e ∈ project_modules st)
  ∧ (∀ key r, functions st !! key = Some r → 1 ≤ complexity r).

(** What discovery does to a state when it meets the files [l]: the source
    files among them are appended to [python_files] and their module names
    added to [project_modules], the data files are appended to [data_files],
    and nothing else changes. *)
Definition discovered (l : list path) (st st' : auditor) : Prop :=
  python_files st' = python_files st ++ filter is_python_file l
  ∧ project_modules st'
    = project_modules st ∪ list_to_set (module_name_of <$> filter is_python_file l)
  ∧ data_files st' = data_files st ++ filter is_data_file l
  ∧ functions st' = functions st
  ∧ classes st' = classes st
  ∧ main_entry_points st' = main_entry_points st
  ∧ dependencies st' = dependencies st.

(** [true] exactly on the definitions of a class called [name]. *)
Definition defines_class (name : string) (n : node) : bool :=
  match n with
  | ClassDef name' _ _ _ => String.eqb name name'
  | _ => false
  end.

(** The entry point [_analyze_file] records for the file [p], if any. *)
Definition entry_point_of (top : list fs_entry) (parse : string → option node)
    (p : path) : list string :=
  match read_text top p with
  | Some content =>
      if parses top parse p && Py.str_in main_guard content
      then [module_name_of p] else []
  | None => []
  end.

(** A project of two source files in which [pkg/b.py] holds
    [from .a import f]: a from-import with module name [a] and level 1. *)
Definition text_b_from_a : string := "from .a import f" +:+ Scenario.nl.

Definition tree_b_from_a : node :=
  Module_ [ImportFrom (Some "a") [{| alias_name := "f"; asname := None |}] 1].

Definition top_from_a : list fs_entry :=
  [Dir "pkg" [File "a.py" (Some Scenario.text_a);
              File "b.py" (Some text_b_from_a)]].

Definition parse_from_a (s : string) : option node :=
  if String.eqb s Scenario.text_a then Some Scenario.tree_a
  else if String.eqb s text_b_from_a then Some tree_b_from_a
  else None.

(** A project whose only file [m.py] is a guarded call, [if __name__ ==
    "__main__": main()], with its tree. *)
Definition text_main : string := main_guard +:+ ": main()" +:+ Scenario.nl.

(** The test is a comparison: a name (with its context), the operator and
    a constant, which has no child node; the body is an expression statement
    holding a call of a name. *)
Definition tree_main : node :=
  Module_ [If (Other [Other [Other []]; Other []; Other []])
             [Other [Other [Other [Other []]]]] []].

Definition top_main : list fs_entry := [File "m.py" (Some text_main)].

Definition parse_main (s : string) : option node :=
  if String.eqb s text_main then Some tree_main else None.

(** The node classes the complexity counts, named one by one: [If], [For],
    [While], [Try] and [With], and no other. *)
Definition counted_class (n : node) : bool :=
  match n with
  | If _ _ _ => true
  | For _ _ _ _ => true
  | While _ _ _ => true
  | Try _ _ _ _ => true
  | With _ _ => true
  | _ => false
  end.

(** The nodes the specification's wording counts: conditionals, for-loops,
    while-loops, exception-handling blocks and with-blocks, of which
    [async for], [try] with [except*] and [async with] are instances. *)
Definition spec_counted_kind (n : node) : bool :=
  match n with
  | If _ _ _ => true
  | For _ _ _ _ | AsyncFor _ _ _ _ => true
  | While _ _ _ => true
  | Try _ _ _ _ | TryStar _ _ _ _ => true
  | With _ _ | AsyncWith _ _ => true
  | _ => false
  end.

(** More leaves: a name (its context is a child node) and a [with] item
    made of a name. *)
Definition name_expr : node := Other [Other []].
Definition with_item : node := Other [name_expr].

(** [nested.py]: a function [f] that holds an asynchronous function [g], whose
    body is an [async for] and an [async with]. *)
Definition text_async : string :=
  "def f():" +:+ Scenario.nl
  +:+ "    async def g():" +:+ Scenario.nl
  +:+ "        async for x in y:" +:+ Scenario.nl
  +:+ "            pass" +:+ Scenario.nl
  +:+ "        async with z:" +:+ Scenario.nl
  +:+ "            pass" +:+ Scenario.nl.

Definition def_g_async : node :=
  AsyncFunctionDef "g" Scenario.no_arguments
    [AsyncFor name_expr name_expr [Scenario.pass_stmt] [];
     AsyncWith [with_item] [Scenario.pass_stmt]] [].

Definition def_f_async : node :=
  FunctionDef "f" Scenario.no_arguments [def_g_async] [].

Definition tree_async : node := Module_ [def_f_async].

Definition top_async : list fs_entry := [File "nested.py" (Some text_async)].

Definition parse_async (s : string) : option node :=
  if String.eqb s text_async then Some tree_async else None.

(** [cls.py]: a class with an asynchronous method [am] and a method [m]. *)
Definition text_cls : string :=
  "class C:" +:+ Scenario.nl
  +:+ "    async def am():" +:+ Scenario.nl +:+ "        pass" +:+ Scenario.nl
  +:+ "    def m():" +:+ Scenario.nl +:+ "        pass" +:+ Scenario.nl.

Definition def_am : node :=
  AsyncFunctionDef "am" Scenario.no_arguments [Scenario.pass_stmt] [].

Definition class_C : node := ClassDef "C" [] [def_am; Scenario.def_m_A] [].

Definition tree_cls : node := Module_ [class_C].

Definition top_cls : list fs_entry := [File "cls.py" (Some text_cls)].

Definition parse_cls (s : string) : option node :=
  if String.eqb s text_cls then Some tree_cls else None.

(** [big.py]: a function with two conditionals (one inside a nested
    function), a for-loop around a while-loop, a [try] and a [with]. *)
Definition text_big : string :=
  "def big():" +:+ Scenario.nl
  +:+ "    if a:" +:+ Scenario.nl +:+ "        pass" +:+ Scenario.nl
  +:+ "    for x in y:" +:+ Scenario.nl
  +:+ "        while b:" +:+ Scenario.nl +:+ "            pass" +:+ Scenario.nl
  +:+ "    try:" +:+ Scenario.nl +:+ "        pass" +:+ Scenario.nl
  +:+ "    except E:" +:+ Scenario.nl +:+ "        pass" +:+ Scenario.nl
  +:+ "    with c:" +:+ Scenario.nl +:+ "        pass" +:+ Scenario.nl
  +:+ "    def inner():" +:+ Scenario.nl
  +:+ "        if d:" +:+ Scenario.nl +:+ "            pass" +:+ Scenario.nl.

Definition def_inner : node :=
  FunctionDef "inner" Scenario.no_arguments
    [If name_expr [Scenario.pass_stmt] []] [].

Definition def_big : node :=
  FunctionDef "big" Scenario.no_arguments
    [If name_expr [Scenario.pass_stmt] [];
     For name_expr name_expr [While name_expr [Scenario.pass_stmt] []] [];
     Try [Scenario.pass_stmt] [Other [name_expr; Scenario.pass_stmt]] [] [];
     With [with_item] [Scenario.pass_stmt];
     def_inner] [].

Definition tree_big : node := Module_ [def_big].

Definition top_big : list fs_entry := [File "big.py" (Some text_big)].

Definition parse_big (s : string) : option node :=
  if String.eqb s text_big then Some tree_big else None.

(** * Properties *)

(** ** The primitives on examples *)

Example split_abc : Py.split "." "a.b.c" = ["a"; "b"; "c"].
Proof. reflexivity. Qed.

Example split_empty : Py.split "." EmptyString = [EmptyString].
Proof. reflexivity. Qed.

Example slice_neg : Py.slice_to (-2) ["a"; "b"; "c"] = ["a"].
Proof. reflexivity. Qed.

Example slice_neg_over : Py.slice_to (-5) ["a"; "b"; "c"] = [].
Proof. reflexivity. Qed.

Example lower_ex : Py.lower "FooStrategy" = "foostrategy".
Proof. reflexivity. Qed.

Example endswith_ex : Py.endswith "x.yaml.json" ".json" = true.
Proof. reflexivity. Qed.

Example str_in_ex : Py.str_in "strategy" "strategies" = false.
Proof. reflexivity. Qed.

(** ** Trees and their traversal *)

Section Trees.

Lemma fold_node_unfold {A} (f : node -> list A -> A) (n : node) :
  fold_node f n = f n (map (fold_node f) (iter_child_nodes n)).
Proof.
  destruct n; simpl; rewrite ?map_app, ?map_map; reflexivity.
Qed.

Lemma node_size_unfold n :
  node_size n = S (list_sum (map node_size (iter_child_nodes n))).
Proof. unfold node_size at 1. by rewrite fold_node_unfold. Qed.

Lemma subnodes_unfold n :
  subnodes n = n :: concat (map subnodes (iter_child_nodes n)).
Proof. unfold subnodes at 1. by rewrite fold_node_unfold. Qed.

Lemma count_branches_unfold n :
  count_branches n =
  (if is_branch n then 1 else 0)
  + list_sum (map count_branches (iter_child_nodes n)).
Proof. unfold count_branches at 1. by rewrite fold_node_unfold. Qed.

Lemma list_sum_elem (l : list nat) (x : nat) : x ∈ l → x ≤ list_sum l.
Proof.
  induction 1 as [x l|x y l _ IH]; simpl; lia.
Qed.

Lemma child_smaller n c :
  c ∈ iter_child_nodes n → node_size c < node_size n.
Proof.
  intros Hc. rewrite (node_size_unfold n).
  assert (node_size c ≤ list_sum (map node_size (iter_child_nodes n))).
  { apply list_sum_elem. apply list_elem_of_fmap. eauto. }
  lia.
Qed.

(** Induction on trees through [iter_child_nodes]. *)
Lemma node_children_ind (P : node → Prop) :
  (∀ n, Forall P (iter_child_nodes n) → P n) → ∀ n, P n.
Proof.
  intros step n.
  remember (node_size n) as k eqn:Hk.
  revert n Hk. induction k as [k IH] using lt_wf_ind. intros n ->.
  apply step. apply Forall_forall. intros c Hc.
  apply (IH (node_size c)); [by apply child_smaller | done].
Qed.

Lemma queue_size_app q1 q2 :
  queue_size (q1 ++ q2) = queue_size q1 + queue_size q2.
Proof. unfold queue_size. by rewrite map_app, list_sum_app. Qed.

Lemma queue_size_cons n rest :
  queue_size (n :: rest)
  = S (queue_size (rest ++ iter_child_nodes n)).
Proof.
  rewrite queue_size_app. unfold queue_size. simpl.
  rewrite node_size_unfold. lia.
Qed.

(** With enough fuel the queue loop visits exactly the nodes below the
    queued ones, each once. *)
Lemma walk_queue_perm fuel todo :
  queue_size todo ≤ fuel →
  walk_queue fuel todo ≡ₚ concat (map subnodes todo).
Proof.
  revert todo. induction fuel as [|fuel IH]; intros todo Hfuel.
  - destruct todo as [|n rest]; [done|].
    rewrite queue_size_cons in Hfuel. lia.
  - destruct todo as [|n rest]; [done|].
    rewrite queue_size_cons in Hfuel.
    simpl. rewrite subnodes_unfold. simpl. constructor.
    rewrite IH by lia.
    rewrite map_app, concat_app. apply Permutation_app_comm.
Qed.

Lemma walk_perm n : walk n ≡ₚ subnodes n.
Proof.
  unfold walk. rewrite walk_queue_perm.
  - simpl. by rewrite app_nil_r.
  - unfold queue_size. simpl. lia.
Qed.

(** More fuel than needed changes nothing. *)
Lemma walk_queue_fuel fuel fuel' todo :
  queue_size todo ≤ fuel → fuel ≤ fuel' →
  walk_queue fuel' todo = walk_queue fuel todo.
Proof.
  revert fuel' todo. induction fuel as [|fuel IH]; intros fuel' todo H1 H2.
  - destruct todo as [|n rest].
    + by destruct fuel'.
    + rewrite queue_size_cons in H1. lia.
  - destruct fuel' as [|fuel']; [lia|].
    destruct todo as [|n rest]; [done|].
    rewrite queue_size_cons in H1.
    simpl. f_equal. apply IH; lia.
Qed.

Lemma walk_head n : ∃ rest, walk n = n :: rest.
Proof.
  unfold walk. rewrite node_size_unfold. simpl. eauto.
Qed.

Lemma branch_count_cons n l :
  branch_count (n :: l) = (if is_branch n then 1 else 0) + branch_count l.
Proof.
  unfold branch_count. rewrite filter_cons.
  destruct (decide (is_branch n = true)) as [->|Hn]; [done|].
  by destruct (is_branch n).
Qed.

Lemma branch_count_app l1 l2 :
  branch_count (l1 ++ l2) = branch_count l1 + branch_count l2.
Proof.
  unfold branch_count. by rewrite filter_app, map_app, list_sum_app.
Qed.

Lemma branch_count_perm l1 l2 : l1 ≡ₚ l2 → branch_count l1 = branch_count l2.
Proof.
  induction 1 as [|x l l' _ IH|x y l|l l' l'' _ IH1 _ IH2].
  - done.
  - by rewrite !branch_count_cons, IH.
  - rewrite !branch_count_cons. lia.
  - congruence.
Qed.

Lemma branch_count_subnodes n : branch_count (subnodes n) = count_branches n.
Proof.
  induction n as [n IH] using node_children_ind.
  rewrite subnodes_unfold, count_branches_unfold, branch_count_cons.
  f_equal. induction IH as [|c cs Hc _ IHcs]; [done|].
  simpl. by rewrite branch_count_app, Hc, IHcs.
Qed.

Lemma complexity_of_count n : complexity_of n = 1 + count_branches n.
Proof.
  unfold complexity_of. fold (branch_count (walk n)).
  rewrite (branch_count_perm _ _ (walk_perm n)), branch_count_subnodes. lia.
Qed.

Lemma elem_of_walk c n : c ∈ walk n ↔ in_subtree c n.
Proof. unfold in_subtree. by rewrite (walk_perm n). Qed.

End Trees.

(** ** Loops and exceptions *)

Section Monad.

Lemma returns_ret {A} (a : A) : returns (ret a).
Proof. intros st. by exists a. Qed.

Lemma returns_modify f : returns (modify f).
Proof. intros st. by exists tt. Qed.

Lemma returns_when c body : returns body → returns (when c body).
Proof. destruct c; [done | intros _; apply returns_ret]. Qed.

Lemma returns_unit (m : M unit) st :
  returns m → m st = (Returned tt, exec m st).
Proof.
  intros Hm. destruct (Hm st) as [[] Ha]. unfold exec.
  destruct (m st) as [o st']. simpl in *. by subst.
Qed.

Lemma bind_returns (m k : M unit) st :
  returns m → (m ;;; k) st = k (exec m st).
Proof.
  intros Hm. unfold bind. by rewrite (returns_unit m st Hm).
Qed.

(** A loop whose body never raises is a left fold of the body. *)
Lemma for_each_fold {A} (l : list A) (body : A → M unit) st :
  (∀ x, returns (body x)) →
  for_each l body st
  = (Returned tt, fold_left (λ s x, exec (body x) s) l st).
Proof.
  intros Hbody. revert st. induction l as [|x l IH]; intros st; [done|].
  simpl. rewrite bind_returns by done. apply IH.
Qed.

Lemma returns_for_each {A} (l : list A) (body : A → M unit) :
  (∀ x, returns (body x)) → returns (for_each l body).
Proof.
  intros Hbody st. exists tt. by rewrite for_each_fold.
Qed.

Lemma fold_left_preserves {A} (P : auditor → Prop) (f : auditor → A → auditor)
    (l : list A) st :
  (∀ s x, P s → P (f s x)) → P st → P (fold_left f l st).
Proof.
  intros Hf. revert st. induction l as [|x l IH]; intros st Hst; [done|].
  simpl. apply IH. by apply Hf.
Qed.

(** The same for a loop whose body is known to return on the elements
    met. *)
Lemma for_each_fold_in {A} (l : list A) (body : A → M unit) st :
  (∀ x, x ∈ l → returns (body x)) →
  for_each l body st
  = (Returned tt, fold_left (λ s x, exec (body x) s) l st).
Proof.
  revert st. induction l as [|x l IH]; intros st Hbody; [done|].
  simpl. rewrite bind_returns by (apply Hbody, elem_of_cons; by left).
  apply IH. intros y Hy. apply Hbody, elem_of_cons. by right.
Qed.

(** Whether a loop returns or stops at a raise, what every iteration keeps
    true is true of the state it leaves. *)
Lemma for_each_preserves {A} (P : auditor → Prop) (l : list A)
    (body : A → M unit) st :
  (∀ x s, x ∈ l → P s → P (exec (body x) s)) →
  P st → P (exec (for_each l body) st).
Proof.
  revert st. induction l as [|x l IH]; intros st Hbody Hst; [done|].
  assert (Hx : P (exec (body x) st)).
  { apply Hbody; [apply elem_of_cons; by left | done]. }
  unfold exec in *. simpl. unfold bind.
  destruct (body x st) as [[[]|e] st']; simpl in *; [|done].
  apply IH; [|done]. intros y s Hy. apply Hbody, elem_of_cons. by right.
Qed.

Lemma print_state rt text st : exec (print rt text) st = st.
Proof. unfold exec, print. by destruct (stdout_encodes rt text). Qed.

End Monad.

(** ** Import resolution and the loop body *)

Section Steps.

Lemma startswith_refl s : Py.startswith s s = true.
Proof.
  unfold Py.startswith. induction s as [|a s IH]; [done|].
  simpl. by destruct (ascii_dec a a).
Qed.

Lemma known_module_spec st resolved :
  known_module st resolved = true ↔ resolved ∈ project_modules st.
Proof.
  unfold known_module. rewrite existsb_exists. split.
  - intros (m & Hm & _). apply list_elem_of_In in Hm.
    apply list_elem_of_filter in Hm as [-> Hm]. by apply elem_of_elements.
  - intros Hin. exists resolved. split.
    + apply list_elem_of_In, list_elem_of_filter. split; [done|].
      by apply elem_of_elements.
    + apply startswith_refl.
Qed.

Lemma returns_add_dependency a d lv : returns (_add_dependency a d lv).
Proof.
  intros st. exists tt. unfold _add_dependency, bind, get.
  by destruct (known_module st _).
Qed.

Lemma exec_add_dependency a d lv st :
  exec (_add_dependency a d lv) st
  = if known_module st (resolved_dep a d lv)
    then add_edge a (resolved_dep a d lv) st
    else st.
Proof.
  unfold exec, _add_dependency, bind, get.
  by destruct (known_module st _).
Qed.

Lemma returns_analyze_node m n : returns (analyze_node m n).
Proof.
  destruct n; simpl; try apply returns_ret; try apply returns_modify.
  - apply returns_for_each. intros a. apply returns_add_dependency.
  - destruct module; [|apply returns_ret].
    apply returns_when, returns_add_dependency.
Qed.

Lemma same_but_dependencies_refl st : same_but_dependencies st st.
Proof. by repeat split. Qed.

Lemma same_but_dependencies_trans st1 st2 st3 :
  same_but_dependencies st1 st2 → same_but_dependencies st2 st3 →
  same_but_dependencies st1 st3.
Proof.
  unfold same_but_dependencies. intuition congruence.
Qed.

Lemma add_dependency_frame a d lv st :
  same_but_dependencies st (exec (_add_dependency a d lv) st).
Proof.
  rewrite exec_add_dependency.
  destruct (known_module st _); by repeat split.
Qed.

Lemma import_loop_frame m (names : list alias) st :
  same_but_dependencies st
    (exec (for_each names (λ a, _add_dependency m (alias_name a) 0)) st).
Proof.
  unfold exec at 1.
  rewrite for_each_fold by (intros a; apply returns_add_dependency).
  simpl. apply (fold_left_preserves (same_but_dependencies st)).
  - intros s a Hs. eapply same_but_dependencies_trans; [exact Hs|].
    apply add_dependency_frame.
  - apply same_but_dependencies_refl.
Qed.

(** The loop body writes [functions] only at a function definition. *)
Lemma analyze_node_functions m n st :
  functions (exec (analyze_node m n) st)
  = match n with
    | FunctionDef name _ _ _ =>
        <[record_key m name := {| complexity := complexity_of n |}]>
          (functions st)
    | _ => functions st
    end.
Proof.
  destruct n; try reflexivity.
  - apply (import_loop_frame m names st).
  - simpl. destruct module as [md|]; [|done].
    destruct (Py.truthy md); [|done]. apply add_dependency_frame.
Qed.

(** The loop body writes [classes] only at a class definition. *)
Lemma analyze_node_classes m n st :
  classes (exec (analyze_node m n) st)
  = match n with
    | ClassDef name _ body _ =>
        <[record_key m name :=
            {| methods := method_names body;
               is_strategy := strategy_flag name m |}]> (classes st)
    | _ => classes st
    end.
Proof.
  destruct n; try reflexivity.
  - apply (import_loop_frame m names st).
  - simpl. destruct module as [md|]; [|done].
    destruct (Py.truthy md); [|done]. apply add_dependency_frame.
Qed.

(** The loop body never touches the discovery results or the entry
    points. *)
Lemma analyze_node_frame m n st :
  python_files (exec (analyze_node m n) st) = python_files st
  ∧ project_modules (exec (analyze_node m n) st) = project_modules st
  ∧ main_entry_points (exec (analyze_node m n) st) = main_entry_points st
  ∧ data_files (exec (analyze_node m n) st) = data_files st.
Proof.
  destruct n; try by repeat split.
  - destruct (import_loop_frame m names st) as (?&?&?&?&?&?). done.
  - simpl. destruct module as [md|]; [|done].
    destruct (Py.truthy md); [|done].
    destruct (add_dependency_frame m md level st) as (?&?&?&?&?&?). done.
Qed.

End Steps.

(** ** One file *)

Section File.

Variable top : list fs_entry.
Variable parse : string → option node.
Variable rt : runtime.

Lemma analyze_file_unreadable p st :
  read_text top p = None →
  _analyze_file top parse rt p st = print rt (warning_text rt p OSError) st.
Proof.
  intros Hread. unfold _analyze_file, try_except, bind, open_read.
  by rewrite Hread.
Qed.

Lemma analyze_file_unparsed p content st :
  read_text top p = Some content → parse content = None →
  _analyze_file top parse rt p st
  = print rt (warning_text rt p SyntaxError) st.
Proof.
  intros Hread Hparse.
  unfold _analyze_file, try_except, bind, open_read, ast_parse.
  rewrite Hread. simpl. by rewrite Hparse.
Qed.

Lemma analyze_file_parsed p content tree st :
  read_text top p = Some content → parse content = Some tree →
  _analyze_file top parse rt p st
  = (Returned tt,
     analyze_tree (module_name_of p) tree
       (if Py.str_in main_guard content
        then add_entry_point (module_name_of p) st else st)).
Proof.
  intros Hread Hparse.
  unfold _analyze_file, try_except, open_read, ast_parse.
  unfold bind at 1. rewrite Hread. simpl.
  unfold bind at 1. rewrite Hparse. simpl.
  rewrite bind_returns by (apply returns_when, returns_modify).
  rewrite for_each_fold by (intros n; apply returns_analyze_node).
  by destruct (Py.str_in main_guard content).
Qed.

(** The outcome of a call: it raises exactly when the warning cannot be
    written. *)
Lemma analyze_file_outcome p st :
  fst (_analyze_file top parse rt p st)
  = if warning_printed top parse rt p
    then Returned tt else Raised UnicodeEncodeError.
Proof.
  unfold warning_printed, failure.
  destruct (read_text top p) as [content|] eqn:Hread.
  - destruct (parse content) as [tree|] eqn:Hparse.
    + by rewrite (analyze_file_parsed _ _ _ _ Hread Hparse).
    + rewrite (analyze_file_unparsed _ _ _ Hread Hparse). unfold print.
      by destruct (stdout_encodes rt _).
  - rewrite (analyze_file_unreadable _ _ Hread). unfold print.
    by destruct (stdout_encodes rt _).
Qed.

Lemma returns_analyze_file p :
  warning_printed top parse rt p = true → returns (_analyze_file top parse rt p).
Proof.
  intros Hp st. exists tt. by rewrite analyze_file_outcome, Hp.
Qed.

End File.

Section Records.

Variable m : string.

Lemma record_key_inj name name' :
  record_key m name = record_key m name' → name = name'.
Proof.
  unfold record_key. intros H.
  apply (inj (String.app m)) in H. by apply (inj (String.app ".")) in H.
Qed.

Lemma analyze_nodes_app l1 l2 st :
  analyze_nodes m (l1 ++ l2) st = analyze_nodes m l2 (analyze_nodes m l1 st).
Proof. unfold analyze_nodes. apply fold_left_app. Qed.

Lemma analyze_nodes_cons n l st :
  analyze_nodes m (n :: l) st = analyze_nodes m l (exec (analyze_node m n) st).
Proof. reflexivity. Qed.

(** A record, once written, stays (possibly overwritten). *)
Lemma functions_stay l st key :
  is_Some (functions st !! key) →
  is_Some (functions (analyze_nodes m l st) !! key).
Proof.
  intros Hst. unfold analyze_nodes.
  apply (fold_left_preserves (λ s, is_Some (functions s !! key))); [|done].
  intros s n Hs. rewrite analyze_node_functions.
  destruct n; try done.
  rewrite lookup_insert. case_decide; [by eexists | done].
Qed.

(** Every function definition the loop meets has a record afterwards. *)
Lemma functions_present l st name args body decs :
  FunctionDef name args body decs ∈ l →
  is_Some (functions (analyze_nodes m l st) !! record_key m name).
Proof.
  revert st. induction l as [|n l IH]; intros st Hin.
  - by apply elem_of_nil in Hin.
  - rewrite analyze_nodes_cons. apply elem_of_cons in Hin as [<-|Hin].
    + apply functions_stay. rewrite analyze_node_functions.
      unfold record_key. rewrite lookup_insert_eq. by eexists.
    + by apply IH.
Qed.

(** Every record comes from the initial state or from a function
    definition the loop met. *)
Lemma functions_origin l st key r :
  functions (analyze_nodes m l st) !! key = Some r →
  functions st !! key = Some r
  ∨ ∃ name args body decs,
      FunctionDef name args body decs ∈ l
      ∧ key = record_key m name
      ∧ r = {| complexity := complexity_of (FunctionDef name args body decs) |}.
Proof.
  revert st. induction l as [|n l IH]; intros st Hr; [by left|].
  rewrite analyze_nodes_cons in Hr. apply IH in Hr as [Hr|Hr].
  - rewrite analyze_node_functions in Hr.
    destruct n; try (by left).
    rewrite lookup_insert in Hr. case_decide as Hk.
    + right. exists name, n, body, decorator_list.
      split; [apply elem_of_cons; by left|]. split; [done|]. congruence.
    + by left.
  - right. destruct Hr as (name & args & body & decs & Hin & Hk & Hr).
    exists name, args, body, decs. split; [|done].
    apply elem_of_cons. by right.
Qed.

(** The record of a name is the one of its last definition. *)
Lemma functions_last l1 l2 st name args body decs :
  (∀ args' body' decs', FunctionDef name args' body' decs' ∉ l2) →
  functions (analyze_nodes m (l1 ++ FunctionDef name args body decs :: l2) st)
    !! record_key m name
  = Some {| complexity := complexity_of (FunctionDef name args body decs) |}.
Proof.
  intros Hl2. rewrite analyze_nodes_app, analyze_nodes_cons.
  set (s1 := exec _ _).
  assert (Hs1 : functions s1 !! record_key m name
                = Some {| complexity :=
                     complexity_of (FunctionDef name args body decs) |}).
  { unfold s1. rewrite analyze_node_functions. apply lookup_insert_eq. }
  clearbody s1. revert s1 Hs1.
  induction l2 as [|n l2 IH]; intros s1 Hs1; [done|].
  rewrite analyze_nodes_cons. apply IH.
  - intros a' b' d' Hin. apply (Hl2 a' b' d'). apply elem_of_cons. by right.
  - rewrite analyze_node_functions. destruct n; try done.
    rewrite lookup_insert_ne; [done|].
    intros Hk. apply record_key_inj in Hk. subst.
    apply (Hl2 n body0 decorator_list). apply elem_of_cons. by left.
Qed.

Lemma classes_stay_flag l st key r :
  classes st !! key = Some r →
  (∀ name, key = record_key m name → is_strategy r = strategy_flag name m) →
  ∃ r', classes (analyze_nodes m l st) !! key = Some r'
        ∧ is_strategy r' = is_strategy r.
Proof.
  intros Hst Hflag. unfold analyze_nodes.
  apply (fold_left_preserves
           (λ s, ∃ r', classes s !! key = Some r'
                       ∧ is_strategy r' = is_strategy r)); [|by exists r].
  intros s n (r' & Hr' & Hf). rewrite analyze_node_classes.
  destruct n; try (by exists r').
  rewrite lookup_insert. case_decide as Hk; [|by exists r'].
  eexists. split; [done|]. simpl. symmetry. by apply Hflag.
Qed.

(** Every class definition the loop meets has a record afterwards, with
    the flag computed from its name and the module. *)
Lemma classes_present l st name bases body decs :
  ClassDef name bases body decs ∈ l →
  ∃ r, classes (analyze_nodes m l st) !! record_key m name = Some r
       ∧ is_strategy r = strategy_flag name m.
Proof.
  revert st. induction l as [|n l IH]; intros st Hin.
  - by apply elem_of_nil in Hin.
  - rewrite analyze_nodes_cons. apply elem_of_cons in Hin as [<-|Hin].
    + destruct (classes_stay_flag l (exec (analyze_node m
                  (ClassDef name bases body decs)) st) (record_key m name)
                  {| methods := method_names body;
                     is_strategy := strategy_flag name m |})
        as (r' & Hr' & Hf).
      * rewrite analyze_node_classes. apply lookup_insert_eq.
      * intros name' Hk. apply record_key_inj in Hk. by subst.
      * exists r'. by split.
    + by apply IH.
Qed.

Lemma analyze_nodes_frame l st :
  python_files (analyze_nodes m l st) = python_files st
  ∧ project_modules (analyze_nodes m l st) = project_modules st
  ∧ main_entry_points (analyze_nodes m l st) = main_entry_points st
  ∧ data_files (analyze_nodes m l st) = data_files st.
Proof.
  unfold analyze_nodes.
  apply (fold_left_preserves
           (λ s, python_files s = python_files st
                 ∧ project_modules s = project_modules st
                 ∧ main_entry_points s = main_entry_points st
                 ∧ data_files s = data_files st)); [|done].
  intros s n (H1 & H2 & H3 & H4).
  destruct (analyze_node_frame m n s) as (F1 & F2 & F3 & F4).
  repeat split; congruence.
Qed.

End Records.

(** ** Subtrees *)

Section Subtrees.

Lemma in_subtree_refl n : in_subtree n n.
Proof. unfold in_subtree. rewrite subnodes_unfold. apply elem_of_cons. by left. Qed.

Lemma in_subtree_child c d n :
  d ∈ iter_child_nodes n → in_subtree c d → in_subtree c n.
Proof.
  unfold in_subtree. intros Hd Hc. rewrite (subnodes_unfold n).
  apply elem_of_cons. right. apply list_elem_of_In, in_concat.
  exists (subnodes d). split; [|by apply list_elem_of_In].
  apply in_map. by apply list_elem_of_In.
Qed.

Lemma in_subtree_inv c n :
  in_subtree c n → c = n ∨ ∃ d, d ∈ iter_child_nodes n ∧ in_subtree c d.
Proof.
  unfold in_subtree. rewrite (subnodes_unfold n). intros Hc.
  apply elem_of_cons in Hc as [Hc|Hc]; [by left|]. right.
  apply list_elem_of_In, in_concat in Hc as (l & Hl & Hc).
  apply in_map_iff in Hl as (d & <- & Hd).
  exists d. split; by apply list_elem_of_In.
Qed.

(** What lies inside a nested definition lies inside the enclosing one. *)
Lemma in_subtree_trans c d n :
  in_subtree d n → in_subtree c d → in_subtree c n.
Proof.
  revert d c. induction n as [n IH] using node_children_ind.
  intros d c Hd Hc. apply in_subtree_inv in Hd as [->|(k & Hk & Hd)]; [done|].
  apply (in_subtree_child c k n Hk).
  rewrite Forall_forall in IH. by apply (IH k Hk d c).
Qed.

Lemma complexity_of_subnodes n :
  complexity_of n = 1 + branch_count (subnodes n).
Proof. by rewrite complexity_of_count, branch_count_subnodes. Qed.

Lemma branch_count_zero l :
  branch_count l = 0 ↔ ∀ n, n ∈ l → is_branch n = false.
Proof.
  induction l as [|x l IH].
  - split; [|done]. intros _ n Hn. by apply elem_of_nil in Hn.
  - rewrite branch_count_cons. split.
    + intros H0 n Hn. destruct (is_branch x) eqn:Hx; [lia|].
      apply elem_of_cons in Hn as [->|Hn]; [done|].
      apply IH; [lia | done].
    + intros Hall. rewrite (Hall x) by (apply elem_of_cons; by left).
      simpl. apply IH. intros n Hn. apply Hall, elem_of_cons. by right.
Qed.

Lemma defines_spec name n :
  defines name n = true ↔ ∃ args body decs, n = FunctionDef name args body decs.
Proof.
  destruct n; simpl; try (split; [done | by intros (?&?&?&?)]).
  rewrite String.eqb_eq. split.
  - intros ->. eauto.
  - intros (?&?&?&H). by inversion H.
Qed.

(** Among the definitions of [name] in a list there is a last one. *)
Lemma last_definition name l :
  (∃ n, n ∈ l ∧ defines name n = true) →
  ∃ l1 n l2, l = l1 ++ n :: l2 ∧ defines name n = true
             ∧ ∀ n', n' ∈ l2 → defines name n' = false.
Proof.
  induction l as [|x l IH]; intros (n & Hn & Hd).
  - by apply elem_of_nil in Hn.
  - destruct (existsb (defines name) l) eqn:Hex.
    + apply existsb_exists in Hex as (n' & Hn' & Hd').
      destruct IH as (l1 & k & l2 & -> & Hk & Hl2).
      { exists n'. split; [by apply list_elem_of_In | done]. }
      exists (x :: l1), k, l2. by repeat split.
    + assert (Hnone : ∀ n', n' ∈ l → defines name n' = false).
      { intros n' Hn'. destruct (defines name n') eqn:Hd'; [|done].
        assert (existsb (defines name) l = true) as Habs; [|congruence].
        apply existsb_exists. exists n'. split; [by apply list_elem_of_In|done]. }
      apply elem_of_cons in Hn as [->|Hn].
      * exists [], x, l. by repeat split.
      * rewrite (Hnone n Hn) in Hd. done.
Qed.

End Subtrees.

(** ** Complexity (C4) and function records (C7) *)

Section Counting.

Lemma is_branch_counted_class n : is_branch n = counted_class n.
Proof. by destruct n. Qed.

Lemma branch_count_length l :
  branch_count l = length (filter (λ c, counted_class c = true) l).
Proof.
  induction l as [|n l IH]; [done|].
  rewrite branch_count_cons, IH, filter_cons, is_branch_counted_class.
  by destruct (counted_class n).
Qed.

Lemma complexity_of_counted n :
  complexity_of n
  = 1 + length (filter (λ c, counted_class c = true) (subnodes n)).
Proof. by rewrite complexity_of_subnodes, branch_count_length. Qed.

Lemma no_definition_no_record m l st name :
  (∀ n, n ∈ l → defines name n = false) →
  functions (analyze_nodes m l st) !! record_key m name
  = functions st !! record_key m name.
Proof.
  revert st. induction l as [|n l IH]; intros st Hl; [done|].
  rewrite analyze_nodes_cons, IH.
  - rewrite analyze_node_functions.
    assert (Hn : defines name n = false) by (apply Hl, elem_of_cons; by left).
    destruct n; try done.
    rewrite lookup_insert_ne; [done|].
    intros Hk. apply record_key_inj in Hk. subst. simpl in Hn.
    by rewrite String.eqb_refl in Hn.
  - intros n' Hn'. apply Hl, elem_of_cons. by right.
Qed.

End Counting.

(** C4, as stated, fails on the kinds: the function [f] of [nested.py] holds,
    inside a nested definition, an [async for] and an [async with], which are
    a for-loop and a with-block, and its recorded complexity is 1. *)
Lemma async_blocks_are_not_counted :
  read_text top_async ["nested.py"] = Some text_async
  ∧ parse_async text_async = Some tree_async
  ∧ in_subtree def_f_async tree_async
  ∧ length (filter (λ c, spec_counted_kind c = true) (subnodes def_f_async)) = 2
  ∧ functions (exec (_analyze_file top_async parse_async utf8_terminal
                       ["nested.py"]) init) !! "nested.f"
    = Some {| complexity := 1 |}.
Proof.
  split; [reflexivity|]. split; [reflexivity|]. split.
  - unfold in_subtree. vm_compute. repeat constructor.
  - split; vm_compute; reflexivity.
Qed.

(** C4, amended. The complexity stored for a function definition is one plus
    the number of nodes of the classes [If], [For], [While], [Try] and [With]
    among all nodes of its subtree, and of no other class; the subtree of a
    definition contains the subtrees of the definitions nested in it; a
    definition whose subtree has no node of these classes has complexity 1;
    and every record of a parsed file analysed from the initial state holds
    this number for a definition of the file. *)
Theorem complexity_counts_subtree_branches :
  (∀ c, counted_class c = true
        ↔ (∃ test body orelse, c = If test body orelse)
          ∨ (∃ target iter body orelse, c = For target iter body orelse)
          ∨ (∃ test body orelse, c = While test body orelse)
          ∨ (∃ body handlers orelse finalbody,
               c = Try body handlers orelse finalbody)
          ∨ (∃ items body, c = With items body))
  ∧ (∀ m name args body decs st,
       functions (exec (analyze_node m (FunctionDef name args body decs)) st)
         !! record_key m name
       = Some {| complexity :=
                   1 + length (filter (λ c, counted_class c = true)
                                 (subnodes (FunctionDef name args body decs))) |})
  ∧ (∀ n d c, in_subtree d n → in_subtree c d → in_subtree c n)
  ∧ (∀ n, (∀ c, in_subtree c n → counted_class c = false) →
          complexity_of n = 1)
  ∧ (∀ top parse rt p content tree key r,
       read_text top p = Some content → parse content = Some tree →
       functions (exec (_analyze_file top parse rt p) init) !! key = Some r →
       ∃ name args body decs,
         in_subtree (FunctionDef name args body decs) tree
         ∧ key = record_key (module_name_of p) name
         ∧ complexity r
           = 1 + length (filter (λ c, counted_class c = true)
                           (subnodes (FunctionDef name args body decs)))).
Proof.
  split; [|split; [|split; [|split]]].
  - intros c. split.
    + destruct c; try done; intros _.
      * left. eauto.
      * right. left. eauto.
      * right. right. left. eauto.
      * right. right. right. left. eauto 6.
      * right. right. right. right. eauto.
    + intros [(?&?&?&->)|[(?&?&?&?&->)|[(?&?&?&->)|[(?&?&?&?&->)|(?&?&->)]]]];
        done.
  - intros m name args body decs st. rewrite analyze_node_functions.
    rewrite lookup_insert_eq. by rewrite complexity_of_counted.
  - intros n d c. apply in_subtree_trans.
  - intros n Hn. rewrite complexity_of_subnodes.
    assert (branch_count (subnodes n) = 0) as ->; [|done].
    apply branch_count_zero. intros c Hc.
    rewrite is_branch_counted_class. by apply Hn.
  - intros top parse rt p content tree key r Hread Hparse Hr.
    unfold exec in Hr.
    rewrite (analyze_file_parsed _ _ _ _ _ _ _ Hread Hparse) in Hr.
    simpl in Hr. apply functions_origin in Hr as [Hr|Hr].
    + by destruct (Py.str_in main_guard content).
    + destruct Hr as (name & args & body & decs & Hin & -> & ->).
      exists name, args, body, decs. split; [by apply elem_of_walk|].
      split; [done|]. simpl. apply complexity_of_counted.
Qed.

Lemma complexity_counts_subtree_branches_witness :
  (read_text top_big ["big.py"] = Some text_big
   ∧ parse_big text_big = Some tree_big
   ∧ functions (exec (_analyze_file top_big parse_big utf8_terminal ["big.py"])
                  init) !! "big.big" = Some {| complexity := 7 |}
   ∧ ∃ name args body decs,
       in_subtree (FunctionDef name args body decs) tree_big
       ∧ "big.big" = record_key (module_name_of ["big.py"]) name
       ∧ 7 = 1 + length (filter (λ c, counted_class c = true)
                           (subnodes (FunctionDef name args body decs))))
  ∧ functions (exec (_analyze_file top_big parse_big utf8_terminal ["big.py"])
                 init) !! "big.inner" = Some {| complexity := 2 |}
  ∧ (∀ c, in_subtree c Scenario.def_m_A → counted_class c = false)
  ∧ complexity_of Scenario.def_m_A = 1.
Proof.
  destruct complexity_counts_subtree_branches as (_ & _ & _ & Hnone & Hfile).
  assert (Hm : ∀ c, in_subtree c Scenario.def_m_A → counted_class c = false).
  { intros c Hc. unfold in_subtree in Hc. vm_compute in Hc.
    repeat (apply elem_of_cons in Hc as [->|Hc]); try reflexivity.
    by apply elem_of_nil in Hc. }
  split; [|split; [vm_compute; reflexivity|
                   split; [exact Hm | exact (Hnone Scenario.def_m_A Hm)]]].
  split; [reflexivity|]. split; [reflexivity|]. split; [vm_compute; reflexivity|].
  apply (Hfile top_big parse_big utf8_terminal ["big.py"] text_big
           tree_big "big.big" {| complexity := 7 |});
    vm_compute; reflexivity.
Defined.

(** C7, as stated, fails twice. Records are keyed by module and function
    name, so the two methods [m] of [mod.py] share the key [mod.m]: after the
    analysis there is one record for two definitions, and it holds the
    complexity of the second, not of the first. And only [ast.FunctionDef]
    nodes are recorded: the asynchronous function [g] of [nested.py] has no
    record. *)
Lemma same_name_definitions_share_a_record :
  (let st := exec (_analyze_file Scenario.top_dup Scenario.parse_dup
                     utf8_terminal ["mod.py"]) init in
   in_subtree Scenario.def_m_A Scenario.tree_dup
   ∧ in_subtree Scenario.def_m_B Scenario.tree_dup
   ∧ Scenario.def_m_A ≠ Scenario.def_m_B
   ∧ size (functions st) = 1
   ∧ functions st !! "mod.m" = Some {| complexity := 2 |}
   ∧ complexity_of Scenario.def_m_A = 1)
  ∧ (in_subtree def_g_async tree_async
     ∧ functions (exec (_analyze_file top_async parse_async utf8_terminal
                          ["nested.py"]) init) !! "nested.g" = None).
Proof.
  split.
  - repeat split; try (vm_compute; reflexivity); try discriminate.
    + unfold in_subtree. vm_compute. repeat constructor.
    + unfold in_subtree. vm_compute. repeat constructor.
  - split; [|vm_compute; reflexivity].
    unfold in_subtree. vm_compute. repeat constructor.
Qed.

(** C7, amended. After a successfully parsed file has been analysed, every
    [ast.FunctionDef] node of the tree, at any depth, has a record under the
    key module.name with a complexity of at least 1; definitions of one name
    share that record, which holds the complexity of the last of them in the
    order of the traversal; and a name that no [ast.FunctionDef] node of the
    tree defines (the name of an [async def], for one) has no record after an
    analysis from the initial state. *)
Theorem every_definition_has_a_record top parse rt p content tree :
  read_text top p = Some content →
  parse content = Some tree →
  (∀ st name args body decs,
     in_subtree (FunctionDef name args body decs) tree →
     ∃ r l1 args' body' decs' l2,
       functions (exec (_analyze_file top parse rt p) st)
         !! record_key (module_name_of p) name = Some r
       ∧ 1 ≤ complexity r
       ∧ walk tree = l1 ++ FunctionDef name args' body' decs' :: l2
       ∧ (∀ n, n ∈ l2 → defines name n = false)
       ∧ complexity r = complexity_of (FunctionDef name args' body' decs'))
  ∧ (∀ name,
       (∀ args body decs, ¬ in_subtree (FunctionDef name args body decs) tree) →
       functions (exec (_analyze_file top parse rt p) init)
         !! record_key (module_name_of p) name = None).
Proof.
  intros Hread Hparse. split.
  - intros st name args body decs Hin.
    unfold exec. rewrite (analyze_file_parsed _ _ _ _ _ _ _ Hread Hparse). simpl.
    destruct (last_definition name (walk tree))
      as (l1 & n & l2 & Hw & Hn & Hl2).
    { exists (FunctionDef name args body decs). split; [by apply elem_of_walk|].
      apply defines_spec. eauto. }
    apply defines_spec in Hn as (args' & body' & decs' & ->).
    exists {| complexity := complexity_of (FunctionDef name args' body' decs') |},
      l1, args', body', decs', l2.
    split; [|split; [|by repeat split]].
    + unfold analyze_tree. rewrite Hw. apply functions_last.
      intros a' b' d' Hin'. apply Hl2 in Hin'. simpl in Hin'.
      by rewrite String.eqb_refl in Hin'.
    + simpl. rewrite complexity_of_subnodes. lia.
  - intros name Hnone.
    unfold exec. rewrite (analyze_file_parsed _ _ _ _ _ _ _ Hread Hparse). simpl.
    unfold analyze_tree. rewrite no_definition_no_record.
    + by destruct (Py.str_in main_guard content).
    + intros n Hn. destruct (defines name n) eqn:Hd; [|done].
      apply defines_spec in Hd as (args & body & decs & ->).
      destruct (Hnone args body decs). by apply elem_of_walk.
Qed.

Lemma every_definition_has_a_record_witness :
  (read_text Scenario.top_dup ["mod.py"] = Some Scenario.text_dup
   ∧ Scenario.parse_dup Scenario.text_dup = Some Scenario.tree_dup
   ∧ in_subtree Scenario.def_m_A Scenario.tree_dup
   ∧ ∃ r l1 args' body' decs' l2,
       functions (exec (_analyze_file Scenario.top_dup Scenario.parse_dup
                          utf8_terminal ["mod.py"]) init)
         !! record_key (module_name_of ["mod.py"]) "m" = Some r
       ∧ 1 ≤ complexity r
       ∧ walk Scenario.tree_dup = l1 ++ FunctionDef "m" args' body' decs' :: l2
       ∧ (∀ n, n ∈ l2 → defines "m" n = false)
       ∧ complexity r = complexity_of (FunctionDef "m" args' body' decs'))
  ∧ (read_text top_async ["nested.py"] = Some text_async
     ∧ parse_async text_async = Some tree_async
     ∧ (∀ args body decs, ¬ in_subtree (FunctionDef "g" args body decs) tree_async)
     ∧ functions (exec (_analyze_file top_async parse_async utf8_terminal
                          ["nested.py"]) init)
         !! record_key (module_name_of ["nested.py"]) "g" = None).
Proof.
  assert (Hin : in_subtree Scenario.def_m_A Scenario.tree_dup).
  { unfold in_subtree. vm_compute. repeat constructor. }
  assert (Hg : ∀ args body decs,
             ¬ in_subtree (FunctionDef "g" args body decs) tree_async).
  { intros args body decs Hc. unfold in_subtree in Hc. vm_compute in Hc.
    repeat (apply elem_of_cons in Hc as [Hc|Hc]; [discriminate Hc|]).
    by apply elem_of_nil in Hc. }
  split.
  - split; [reflexivity|]. split; [reflexivity|]. split; [exact Hin|].
    destruct (every_definition_has_a_record Scenario.top_dup Scenario.parse_dup
                utf8_terminal ["mod.py"] Scenario.text_dup Scenario.tree_dup
                eq_refl eq_refl) as [H _].
    exact (H init "m" Scenario.no_arguments [Scenario.pass_stmt] [] Hin).
  - split; [reflexivity|]. split; [reflexivity|]. split; [exact Hg|].
    destruct (every_definition_has_a_record top_async parse_async
                utf8_terminal ["nested.py"] text_async tree_async
                eq_refl eq_refl) as [_ H].
    exact (H "g" Hg).
Defined.

(** ** Strings *)

Section Strings.

Lemma app_String a s t : String a s +:+ t = String a (s +:+ t).
Proof. reflexivity. Qed.

Lemma app_empty_l t : EmptyString +:+ t = t.
Proof. reflexivity. Qed.

Lemma app_empty_r s : s +:+ EmptyString = s.
Proof.
  induction s as [|a s IH]; [done|]. by rewrite app_String, IH.
Qed.

Lemma app_assoc_str s1 s2 s3 : (s1 +:+ s2) +:+ s3 = s1 +:+ s2 +:+ s3.
Proof.
  induction s1 as [|a s1 IH]; [done|]. by rewrite !app_String, IH.
Qed.

Lemma prefix_app x post : String.prefix x (x +:+ post) = true.
Proof.
  induction x as [|a x IH]; [by destruct post|].
  rewrite app_String. simpl. by destruct (ascii_dec a a).
Qed.

Lemma str_in_prefix sub s :
  String.prefix sub s = true → Py.str_in sub s = true.
Proof. intros H. destruct s; unfold Py.str_in; by rewrite H. Qed.

Lemma str_in_here x post : Py.str_in x (x +:+ post) = true.
Proof. apply str_in_prefix, prefix_app. Qed.

Lemma str_in_tail sub a s :
  Py.str_in sub s = true → Py.str_in sub (String a s) = true.
Proof. intros H. simpl. rewrite H. apply orb_true_r. Qed.

Lemma str_in_app pre x post : Py.str_in x (pre +:+ x +:+ post) = true.
Proof.
  induction pre as [|a pre IH].
  - rewrite app_empty_l. apply str_in_here.
  - rewrite app_String. by apply str_in_tail.
Qed.

Lemma string_of_list_ascii_app l1 l2 :
  string_of_list_ascii (l1 ++ l2)
  = string_of_list_ascii l1 +:+ string_of_list_ascii l2.
Proof.
  induction l1 as [|a l1 IH]; [done|]. simpl. by rewrite app_String, IH.
Qed.

(** Every piece of a split is a substring of the split text. *)
Lemma split_go_elem c x s cur :
  x ∈ Py.split_go c cur s →
  ∃ pre post, string_of_list_ascii (rev cur) +:+ s = pre +:+ x +:+ post.
Proof.
  revert cur. induction s as [|a s IH]; intros cur Hx; simpl in Hx.
  - apply list_elem_of_singleton in Hx as ->.
    exists EmptyString, EmptyString.
    by rewrite app_empty_l, !app_empty_r.
  - destruct (Ascii.eqb a c).
    + apply elem_of_cons in Hx as [->|Hx].
      * by exists EmptyString, (String a s).
      * apply IH in Hx as (pre & post & E). simpl in E.
        rewrite app_empty_l in E.
        exists (string_of_list_ascii (rev cur) +:+ String a pre), post.
        by rewrite app_assoc_str, app_String, E.
    + apply IH in Hx as (pre & post & E). exists pre, post.
      rewrite <- E. simpl.
      by rewrite string_of_list_ascii_app, app_assoc_str.
Qed.

Lemma split_elem_str_in c x s : x ∈ Py.split c s → Py.str_in x s = true.
Proof.
  intros Hx. apply split_go_elem in Hx as (pre & post & E).
  simpl in E. rewrite app_empty_l in E. rewrite E. apply str_in_app.
Qed.

Lemma substring_full s : String.substring 0 (String.length s) s = s.
Proof. induction s as [|a s IH]; [done|]. simpl. by rewrite IH. Qed.

(** A suffix is a substring. *)
Lemma endswith_str_in s suffix :
  Py.endswith s suffix = true → Py.str_in suffix s = true.
Proof.
  unfold Py.endswith. intros H. apply andb_true_iff in H as [Hle Heq].
  apply Nat.leb_le in Hle. apply String.eqb_eq in Heq.
  induction s as [|a s IH].
  - simpl in *. destruct suffix; [done|]. simpl in Hle. lia.
  - destruct (decide (String.length suffix = String.length (String a s)))
      as [Hlen|Hlen].
    + rewrite Hlen, Nat.sub_diag, substring_full in Heq. subst suffix.
      rewrite <- (app_empty_r (String a s)) at 2. apply str_in_here.
    + simpl in Hle, Hlen. apply str_in_tail, IH; [lia|].
      simpl String.length in Heq.
      replace (S (String.length s) - String.length suffix)
        with (S (String.length s - String.length suffix)) in Heq by lia.
      exact Heq.
Qed.

End Strings.

(** ** Class records and the strategy flag (C5) *)

(** C5, as stated, fails in both directions. A class named [Strategies] in
    module [x.y] is not flagged, because the code looks for [strategy] only,
    which is not a substring of [strategies]; a class named [Foo] in module
    [substrategies.x] is flagged, because the code tests the module name for
    the substring [strategies], not for a component. *)
Lemma strategy_flag_differs_from_stated_rule :
  (classes (exec (analyze_node "x.y"
                    (ClassDef "Strategies" [] [Scenario.pass_stmt] [])) init)
     !! "x.y.Strategies" = Some {| methods := []; is_strategy := false |}
   ∧ spec_is_strategy "Strategies" "x.y" = true)
  ∧ (classes (exec (analyze_node "substrategies.x"
                      (ClassDef "Foo" [] [Scenario.pass_stmt] [])) init)
       !! "substrategies.x.Foo" = Some {| methods := []; is_strategy := true |}
     ∧ spec_is_strategy "Foo" "substrategies.x" = false).
Proof. repeat split; vm_compute; reflexivity. Qed.

(** C5, amended. Every class definition of a parsed file, at any depth, has
    a record under the key module.name whose flag is true exactly when the
    lower-cased class name contains [strategy] or the module name contains
    [strategies] as a substring; in particular a module with a component
    [strategies] flags all its classes. [Helper] in [strategies.optimizer]
    and [FooStrategy] in [x.y] are flagged, [Foo] in [x.y] is not. *)
Theorem class_record_strategy_flag :
  (∀ top parse rt p content tree st name bases body decs,
     read_text top p = Some content →
     parse content = Some tree →
     in_subtree (ClassDef name bases body decs) tree →
     ∃ r,
       classes (exec (_analyze_file top parse rt p) st)
         !! record_key (module_name_of p) name = Some r
       ∧ (is_strategy r = true
          ↔ Py.str_in "strategy" (Py.lower name) = true
            ∨ Py.str_in "strategies" (module_name_of p) = true)
       ∧ ("strategies" ∈ Py.split "." (module_name_of p) → is_strategy r = true))
  ∧ strategy_flag "Helper" "strategies.optimizer" = true
  ∧ strategy_flag "FooStrategy" "x.y" = true
  ∧ strategy_flag "Foo" "x.y" = false.
Proof.
  split; [|by repeat split].
  intros top parse rt p content tree st name bases body decs Hread Hparse Hin.
  unfold exec. rewrite (analyze_file_parsed _ _ _ _ _ _ _ Hread Hparse). simpl.
  apply elem_of_walk in Hin.
  destruct (classes_present (module_name_of p) (walk tree)
              (if Py.str_in main_guard content
               then add_entry_point (module_name_of p) st else st)
              name bases body decs Hin) as (r & Hr & Hflag).
  exists r. split; [exact Hr|]. rewrite Hflag. unfold strategy_flag. split.
  - apply orb_true_iff.
  - intros Hcomp. apply split_elem_str_in in Hcomp. rewrite Hcomp.
    apply orb_true_r.
Qed.

Lemma class_record_strategy_flag_witness :
  read_text [Dir "strategies" [File "optimizer.py" (Some "class Helper: pass")]]
    ["strategies"; "optimizer.py"] = Some "class Helper: pass"
  ∧ in_subtree (ClassDef "Helper" [] [Scenario.pass_stmt] [])
      helper_in_strategies_tree
  ∧ ∃ r,
      classes (exec (_analyze_file
                       [Dir "strategies"
                          [File "optimizer.py" (Some "class Helper: pass")]]
                       (λ _, Some helper_in_strategies_tree) utf8_terminal
                       ["strategies"; "optimizer.py"]) init)
        !! record_key (module_name_of ["strategies"; "optimizer.py"]) "Helper"
      = Some r
      ∧ (is_strategy r = true
         ↔ Py.str_in "strategy" (Py.lower "Helper") = true
           ∨ Py.str_in "strategies"
               (module_name_of ["strategies"; "optimizer.py"]) = true)
      ∧ ("strategies" ∈ Py.split "." (module_name_of ["strategies"; "optimizer.py"])
         → is_strategy r = true).
Proof.
  assert (Hin : in_subtree (ClassDef "Helper" [] [Scenario.pass_stmt] [])
                  helper_in_strategies_tree).
  { unfold in_subtree. vm_compute. repeat constructor. }
  split; [reflexivity|]. split; [exact Hin|].
  destruct class_record_strategy_flag as (H & _).
  exact (H [Dir "strategies" [File "optimizer.py" (Some "class Helper: pass")]]
           (λ _, Some helper_in_strategies_tree) utf8_terminal
           ["strategies"; "optimizer.py"] "class Helper: pass"
           helper_in_strategies_tree init "Helper" [] [Scenario.pass_stmt] []
           eq_refl eq_refl Hin).
Defined.

(** ** Entry points (C2) and parse failures (C8) *)

Section Pass.

Variable top : list fs_entry.
Variable parse : string → option node.
Variable rt : runtime.

Lemma analyze_file_exec p st :
  exec (_analyze_file top parse rt p) st
  = match read_text top p with
    | Some content =>
        match parse content with
        | Some tree =>
            analyze_tree (module_name_of p) tree
              (if Py.str_in main_guard content
               then add_entry_point (module_name_of p) st else st)
        | None => st
        end
    | None => st
    end.
Proof.
  unfold exec. destruct (read_text top p) as [content|] eqn:Hread.
  - destruct (parse content) as [tree|] eqn:Hparse.
    + by rewrite (analyze_file_parsed _ _ _ _ _ _ _ Hread Hparse).
    + rewrite (analyze_file_unparsed _ _ _ _ _ _ Hread Hparse).
      apply print_state.
  - rewrite (analyze_file_unreadable _ _ _ _ _ Hread). apply print_state.
Qed.


Lemma analyze_file_entry_points p st :
  main_entry_points (exec (_analyze_file top parse rt p) st)
  = main_entry_points st
    ++ match read_text top p with
       | Some content =>
           if parses top parse p && Py.str_in main_guard content
           then [module_name_of p] else []
       | None => []
       end.
Proof.
  rewrite analyze_file_exec. unfold parses.
  destruct (read_text top p) as [content|]; [|by rewrite app_nil_r].
  destruct (parse content) as [tree|]; [|by rewrite app_nil_r].
  unfold analyze_tree.
  destruct (analyze_nodes_frame (module_name_of p) (walk tree)
              (if Py.str_in main_guard content
               then add_entry_point (module_name_of p) st else st))
    as (_ & _ & -> & _).
  destruct (Py.str_in main_guard content); simpl; [done|by rewrite app_nil_r].
Qed.


Lemma returns_discover_file root file : returns (discover_file root file).
Proof.
  unfold discover_file. destruct (Py.endswith file ".py").
  - apply returns_modify.
  - apply returns_when, returns_modify.
Qed.

Lemma returns_discover_files : returns (_discover_files top).
Proof.
  apply returns_for_each. intros entry.
  apply returns_for_each, returns_discover_file.
Qed.

(** [run] is the loop over the files discovery found. *)
Lemma run_loop st :
  run top parse rt st
  = for_each (python_files (exec (_discover_files top) st))
      (_analyze_file top parse rt) (exec (_discover_files top) st).
Proof.
  unfold run. by rewrite bind_returns by apply returns_discover_files.
Qed.

(** When every warning can be written the loop is a fold. *)
Lemma run_exec st :
  (∀ p, p ∈ python_files (exec (_discover_files top) st) →
        warning_printed top parse rt p = true) →
  run top parse rt st
  = (Returned tt,
     analyze_files top parse rt
       (python_files (exec (_discover_files top) st))
       (exec (_discover_files top) st)).
Proof.
  intros Hp. rewrite run_loop.
  apply for_each_fold_in. intros p Hin. by apply returns_analyze_file, Hp.
Qed.

(** What discovery establishes and every file keeps is true after [run],
    whether it returns or raises. *)
Lemma run_preserves (P : auditor → Prop) st :
  (∀ p s, p ∈ python_files (exec (_discover_files top) st) →
          P s → P (exec (_analyze_file top parse rt p) s)) →
  P (exec (_discover_files top) st) →
  P (exec (run top parse rt) st).
Proof.
  intros Hfile Hd. unfold exec at 1. rewrite run_loop.
  by apply (for_each_preserves P).
Qed.





End Pass.

(** C2, as stated, fails: the guard is looked for after [ast.parse], inside
    the same [try], so a file that contains the guard but does not parse is
    not marked. *)
Lemma unparsed_file_is_not_an_entry_point :
  Py.str_in main_guard main_guard = true
  ∧ read_text top_guard_only ["m.py"] = Some main_guard
  ∧ parse_rejecting main_guard = None
  ∧ main_entry_points
      (exec (_analyze_file top_guard_only parse_rejecting utf8_terminal ["m.py"]) init) = [].
Proof. repeat split; vm_compute; reflexivity. Qed.

(** C2, amended. Analysing a file appends its module to the entry points
    exactly when the file can be read, parses, and its raw text contains the
    guard as a substring; starting from the initial state, the module is an
    entry point afterwards if and only if these three conditions hold. *)
Theorem entry_point_iff_parsed_and_guard top parse rt p :
  (∀ st,
     main_entry_points (exec (_analyze_file top parse rt p) st)
     = main_entry_points st
       ++ match read_text top p with
          | Some content =>
              if parses top parse p && Py.str_in main_guard content
              then [module_name_of p] else []
          | None => []
          end)
  ∧ (module_name_of p
       ∈ main_entry_points (exec (_analyze_file top parse rt p) init)
     ↔ ∃ content tree,
         read_text top p = Some content
         ∧ parse content = Some tree
         ∧ Py.str_in main_guard content = true).
Proof.
  split; [apply analyze_file_entry_points|].
  rewrite analyze_file_entry_points. unfold parses. simpl.
  destruct (read_text top p) as [content|].
  - destruct (parse content) as [tree|] eqn:Hparse; simpl.
    + destruct (Py.str_in main_guard content) eqn:Hg.
      * split; [intros _; by exists content, tree|].
        intros _. apply elem_of_cons. by left.
      * split; [by intros ?%elem_of_nil|].
        intros (c & t & [= <-] & _ & ?). congruence.
    + split; [by intros ?%elem_of_nil|].
      intros (c & t & [= <-] & ? & _). congruence.
  - split; [by intros ?%elem_of_nil|]. by intros (c & t & ? & _).
Qed.




(** ** Dependency edges (C3) and relative imports (C6) *)

Section Edges.

Lemma deps_of_add_edge a b st key :
  deps_of (add_edge a b st) key
  = if decide (a = key) then {[b]} ∪ deps_of st a else deps_of st key.
Proof.
  unfold deps_of, add_edge. simpl. rewrite lookup_insert.
  by case_decide.
Qed.

Lemma add_dependency_edges a d lv st t :
  t ∈ deps_of (exec (_add_dependency a d lv) st) a
  ↔ t ∈ deps_of st a
    ∨ (t = resolved_dep a d lv ∧ resolved_dep a d lv ∈ project_modules st).
Proof.
  rewrite exec_add_dependency.
  destruct (known_module st (resolved_dep a d lv)) eqn:Hk.
  - apply known_module_spec in Hk. rewrite deps_of_add_edge.
    rewrite decide_True by done. set_solver.
  - assert (resolved_dep a d lv ∉ project_modules st) as Hn.
    { intros Hin. apply known_module_spec in Hin. congruence. }
    set_solver.
Qed.

Lemma add_dependency_other a d lv st key :
  key ≠ a →
  deps_of (exec (_add_dependency a d lv) st) key = deps_of st key.
Proof.
  intros Hne. rewrite exec_add_dependency.
  destruct (known_module st _); [|done].
  rewrite deps_of_add_edge. by rewrite decide_False.
Qed.

Lemma add_dependency_unknown a d lv st :
  resolved_dep a d lv ∉ project_modules st →
  exec (_add_dependency a d lv) st = st.
Proof.
  intros Hn. rewrite exec_add_dependency.
  destruct (known_module st _) eqn:Hk; [|done].
  by apply known_module_spec in Hk.
Qed.

Lemma import_loop_edges a (names : list alias) st t :
  t ∈ deps_of (exec (for_each names
                       (λ al, _add_dependency a (alias_name al) 0)) st) a
  ↔ t ∈ deps_of st a
    ∨ (t ∈ map (λ al, resolved_dep a (alias_name al) 0) names
       ∧ t ∈ project_modules st).
Proof.
  unfold exec at 1.
  rewrite for_each_fold by (intros al; apply returns_add_dependency).
  simpl. revert st. induction names as [|al names IH]; intros st.
  - simpl. split; [by left|]. intros [?|[?%elem_of_nil _]]; done.
  - simpl. rewrite IH, add_dependency_edges.
    destruct (add_dependency_frame a (alias_name al) 0 st)
      as (_ & -> & _).
    rewrite elem_of_cons. naive_solver.
Qed.

(** At level 0 the target is the name given. *)
Lemma resolved_dep_0 a d : resolved_dep a d 0 = d.
Proof. reflexivity. Qed.

Lemma truthy_nonempty d : d ≠ EmptyString → Py.truthy d = true.
Proof. by destruct d. Qed.

Lemma exec_add_dependency_decide a d lv st :
  exec (_add_dependency a d lv) st
  = if decide (resolved_dep a d lv ∈ project_modules st)
    then add_edge a (resolved_dep a d lv) st
    else st.
Proof.
  rewrite exec_add_dependency.
  destruct (known_module st (resolved_dep a d lv)) eqn:Hk.
  - apply known_module_spec in Hk. by rewrite decide_True.
  - rewrite decide_False; [done|].
    intros Hin. apply known_module_spec in Hin. congruence.
Qed.

Lemma analyze_import_from a m names level st :
  m ≠ EmptyString →
  exec (analyze_node a (ImportFrom (Some m) names level)) st
  = exec (_add_dependency a m level) st.
Proof. intros Hm. simpl. by rewrite truthy_nonempty. Qed.

Lemma import_unknown a (names : list alias) st :
  (∀ al, al ∈ names → alias_name al ∉ project_modules st) →
  exec (analyze_node a (Import names)) st = st.
Proof.
  intros Hnames. unfold analyze_node, exec.
  rewrite for_each_fold by (intros al; apply returns_add_dependency). simpl.
  induction names as [|al names IH]; [done|]. simpl.
  rewrite add_dependency_unknown.
  - apply IH. intros al' Hal'. apply Hnames, elem_of_cons. by right.
  - rewrite resolved_dep_0. apply Hnames, elem_of_cons. by left.
Qed.

(** A statement of module [a] writes no other key of [dependencies]. *)
Lemma analyze_node_deps_other a n st key :
  key ≠ a → deps_of (exec (analyze_node a n) st) key = deps_of st key.
Proof.
  intros Hne. destruct n; try done.
  - unfold analyze_node, exec.
    rewrite for_each_fold by (intros al; apply returns_add_dependency). simpl.
    apply (fold_left_preserves (λ s, deps_of s key = deps_of st key)); [|done].
    intros s al Hs. by rewrite add_dependency_other.
  - simpl. destruct module as [md|]; [|done].
    destruct (Py.truthy md); [|done]. by apply add_dependency_other.
Qed.

End Edges.

Section Resolution.

Lemma slice_to_neg {A} (level : nat) (l : list A) :
  0 < level → Py.slice_to (- Z.of_nat level) l = take (length l - level) l.
Proof.
  intros Hlevel. unfold Py.slice_to.
  destruct (Z.ltb_spec (- Z.of_nat level) 0) as [_|?]; [|lia].
  f_equal. lia.
Qed.

Lemma lacks_cons c a s : lacks c (String a s) → a ≠ c ∧ lacks c s.
Proof.
  unfold lacks. simpl. intros H. apply orb_false_iff in H as [Hp Hs].
  split; [|done]. intros ->.
  destruct (ascii_dec c c); [|done]. by destruct s.
Qed.

(** Reading a piece without separator only fills the accumulator. *)
Lemma split_go_piece c cur x rest :
  lacks c x →
  Py.split_go c cur (x +:+ rest)
  = Py.split_go c (rev (list_ascii_of_string x) ++ cur) rest.
Proof.
  revert cur. induction x as [|a x IH]; intros cur Hx; [done|].
  apply lacks_cons in Hx as [Hne Hx].
  rewrite app_String. simpl.
  destruct (Ascii.eqb_spec a c) as [?|_]; [done|].
  rewrite IH by done. by rewrite <- app_assoc.
Qed.

Lemma split_go_sep c cur s :
  Py.split_go c cur (String c s)
  = string_of_list_ascii (rev cur) :: Py.split_go c [] s.
Proof. simpl. by rewrite Ascii.eqb_refl. Qed.

Lemma string_of_rev_acc cur x :
  string_of_list_ascii (rev (rev (list_ascii_of_string x) ++ cur))
  = string_of_list_ascii (rev cur) +:+ x.
Proof.
  rewrite rev_app_distr, rev_involutive, string_of_list_ascii_app.
  by rewrite string_of_list_ascii_of_string.
Qed.

Lemma split_go_join c cur x segs :
  Forall (lacks c) (x :: segs) →
  Py.split_go c cur (Py.join (String c EmptyString) (x :: segs))
  = (string_of_list_ascii (rev cur) +:+ x) :: segs.
Proof.
  revert cur x. induction segs as [|y segs IH]; intros cur x Hall.
  - simpl. rewrite <- (app_empty_r x) at 1.
    rewrite split_go_piece by (by inversion Hall). simpl.
    by rewrite string_of_rev_acc.
  - inversion Hall as [|? ? Hx Hrest]; subst.
    change (Py.join (String c EmptyString) (x :: y :: segs))
      with (x +:+ String c (Py.join (String c EmptyString) (y :: segs))).
    rewrite split_go_piece, split_go_sep, string_of_rev_acc by done.
    f_equal. by rewrite IH.
Qed.

(** Splitting a dotted name gives back its segments. *)
Lemma split_join c segs :
  segs ≠ [] → Forall (lacks c) segs →
  Py.split c (Py.join (String c EmptyString) segs) = segs.
Proof.
  intros Hne Hall. destruct segs as [|x segs]; [done|].
  unfold Py.split. by rewrite split_go_join.
Qed.

Lemma lacks_cons_intro c a s : a ≠ c → lacks c s → lacks c (String a s).
Proof.
  unfold lacks. intros Hne Hs. simpl. rewrite Hs.
  by destruct (ascii_dec c a) as [->|_].
Qed.

Lemma lacks_string_of c l :
  Forall (λ a, a ≠ c) l → lacks c (string_of_list_ascii l).
Proof.
  induction 1 as [|a l Ha _ IH]; [done|]. by apply lacks_cons_intro.
Qed.

Lemma split_go_nonempty c cur s : Py.split_go c cur s ≠ [].
Proof.
  revert cur. induction s as [|a s IH]; intros cur; simpl; [done|].
  destruct (Ascii.eqb a c); [done | apply IH].
Qed.

(** The pieces of a split contain no separator. *)
Lemma split_go_lacks c cur s :
  Forall (λ a, a ≠ c) cur → Forall (lacks c) (Py.split_go c cur s).
Proof.
  revert cur. induction s as [|a s IH]; intros cur Hcur; simpl.
  - constructor; [|done]. by apply lacks_string_of, Forall_rev.
  - destruct (Ascii.eqb_spec a c) as [->|Hne].
    + constructor; [by apply lacks_string_of, Forall_rev | by apply IH].
    + apply IH. by constructor.
Qed.

Lemma join_cons sep x y l :
  Py.join sep (x :: y :: l) = x +:+ sep +:+ Py.join sep (y :: l).
Proof. reflexivity. Qed.

(** Joining the pieces of a split gives back the text. *)
Lemma join_split_go c cur s :
  Py.join (String c EmptyString) (Py.split_go c cur s)
  = string_of_list_ascii (rev cur) +:+ s.
Proof.
  revert cur. induction s as [|a s IH]; intros cur; simpl.
  - by rewrite app_empty_r.
  - destruct (Ascii.eqb_spec a c) as [->|Hne].
    + specialize (IH []). pose proof (split_go_nonempty c [] s) as Hne.
      destruct (Py.split_go c [] s) as [|y l]; [done|].
      rewrite join_cons, IH. simpl. by rewrite app_empty_l.
    + rewrite IH. simpl. by rewrite string_of_list_ascii_app, app_assoc_str.
Qed.

(** Every text is the join of its separator-free pieces. *)
Lemma split_segments c s :
  Py.split c s ≠ [] ∧ Forall (lacks c) (Py.split c s)
  ∧ Py.join (String c EmptyString) (Py.split c s) = s.
Proof.
  unfold Py.split. split; [apply split_go_nonempty|]. split.
  - by apply split_go_lacks.
  - by rewrite join_split_go.
Qed.

Lemma resolved_dep_join segs dep level :
  0 < level → segs ≠ [] → Forall (lacks ".") segs →
  resolved_dep (Py.join "." segs) dep level
  = Py.join "." (take (length segs - level) segs
                   ++ (if Py.truthy dep then [dep] else [])).
Proof.
  intros Hlevel Hne Hall. unfold resolved_dep.
  destruct (Nat.ltb_spec 0 level) as [_|?]; [|lia].
  by rewrite (split_join "." segs Hne Hall), slice_to_neg.
Qed.

End Resolution.

(** C3, as stated, fails for a from-import without module name. In the
    project made of [a.py], [a/b.py] and [a/x.py], the statement
    [from . import x] of module [a.b] resolves, in the specification's
    reading, to the joined base [a]; reading the imported name as the target
    it resolves to [a.x]. Both are exactly known modules, and the pass
    records no edge. *)
Lemma import_of_known_package_records_no_edge :
  let st := exec (run top_ab parse_ab utf8_terminal) init in
  project_modules st = {["a"; "a.b"; "a.x"]}
  ∧ read_text top_ab ["a"; "b.py"] = Some text_from_dot
  ∧ parse_ab text_from_dot = Some tree_from_dot
  ∧ in_subtree import_from_dot tree_from_dot
  ∧ spec_import_targets "a.b" import_from_dot = ["a"]
  ∧ spec_resolved "a.b" "x" 1 = "a.x"
  ∧ "a" ∈ project_modules st
  ∧ "a.x" ∈ project_modules st
  ∧ deps_of st "a.b" = ∅
  ∧ dependencies st = ∅.
Proof.
  intros st.
  assert (Hpm : project_modules st = {["a"; "a.b"; "a.x"]})
    by (vm_compute; reflexivity).
  rewrite Hpm.
  split; [reflexivity|]. split; [reflexivity|]. split; [reflexivity|].
  split; [unfold in_subtree; vm_compute; repeat constructor|].
  split; [reflexivity|]. split; [reflexivity|].
  split; [set_solver|]. split; [set_solver|].
  split; vm_compute; reflexivity.
Qed.

(** C3, amended. For a module [a] and a state [st]: a call of
    [_add_dependency] at level 0, every name of a plain import, and a
    from-import that names a module [m] (resolved against the segments of [a]
    when its level is above 0) add the edge from [a] to the target exactly
    when the target is a member of the project modules, and add nothing else;
    a from-import that names no module leaves the state as it was; no
    statement of [a] changes the edges of another module; and an import whose
    targets are not themselves modules, whatever modules they are a prefix or
    an extension of, leaves the state as it was. *)
Theorem edge_iff_exact_module st a :
  (∀ dep t,
     t ∈ deps_of (exec (_add_dependency a dep 0) st) a
     ↔ t ∈ deps_of st a ∨ (t = dep ∧ dep ∈ project_modules st))
  ∧ (∀ names t,
       t ∈ deps_of (exec (analyze_node a (Import names)) st) a
       ↔ t ∈ deps_of st a
         ∨ ((∃ al, al ∈ names ∧ alias_name al = t) ∧ t ∈ project_modules st))
  ∧ (∀ m names t,
       m ≠ EmptyString →
       (t ∈ deps_of (exec (analyze_node a (ImportFrom (Some m) names 0)) st) a
        ↔ t ∈ deps_of st a ∨ (t = m ∧ m ∈ project_modules st)))
  ∧ (∀ segs m names level t,
       a = Py.join "." segs → segs ≠ [] → Forall (lacks ".") segs →
       0 < level → m ≠ EmptyString →
       (t ∈ deps_of (exec (analyze_node a (ImportFrom (Some m) names level)) st) a
        ↔ t ∈ deps_of st a
          ∨ (t = Py.join "." (take (length segs - level) segs ++ [m])
             ∧ t ∈ project_modules st)))
  ∧ (∀ names level,
       analyze_node a (ImportFrom None names level) st = (Returned tt, st))
  ∧ (∀ n key,
       key ≠ a → deps_of (exec (analyze_node a n) st) key = deps_of st key)
  ∧ (∀ names,
       (∀ al, al ∈ names → alias_name al ∉ project_modules st) →
       exec (analyze_node a (Import names)) st = st)
  ∧ (∀ m names,
       m ∉ project_modules st →
       exec (analyze_node a (ImportFrom (Some m) names 0)) st = st).
Proof.
  split; [|split; [|split; [|split; [|split; [|split; [|split]]]]]].
  - intros dep t. by rewrite add_dependency_edges, resolved_dep_0.
  - intros names t. unfold analyze_node. rewrite import_loop_edges.
    assert (t ∈ map (λ al, resolved_dep a (alias_name al) 0) names
            ↔ ∃ al, al ∈ names ∧ alias_name al = t) as ->; [|done].
    rewrite list_elem_of_In, in_map_iff. split.
    + intros (al & Hal & Hin). exists al. by rewrite <- list_elem_of_In in Hin.
    + intros (al & Hin & Hal). exists al. by rewrite <- list_elem_of_In.
  - intros m names t Hm.
    by rewrite analyze_import_from, add_dependency_edges, resolved_dep_0.
  - intros segs m names level t -> Hne Hall Hlevel Hm.
    rewrite analyze_import_from, add_dependency_edges by done.
    rewrite resolved_dep_join, truthy_nonempty by done.
    naive_solver.
  - done.
  - intros n key. apply analyze_node_deps_other.
  - intros names. apply import_unknown.
  - intros m names Hm. destruct m as [|c m]; [done|].
    rewrite analyze_import_from by done. by apply add_dependency_unknown.
Qed.

Lemma edge_iff_exact_module_witness :
  (("pkg.a" ∈ project_modules only_pkg_a)
   ∧ "pkg.a" ∈ deps_of
       (exec (analyze_node "main"
                (Import [{| alias_name := "pkg.a"; asname := None |}]))
          only_pkg_a) "main")
  ∧ ("pkg.b" = Py.join "." ["pkg"; "b"]
     ∧ "pkg.a" = Py.join "." (take (length ["pkg"; "b"] - 1) ["pkg"; "b"] ++ ["a"])
     ∧ "pkg.a" ∈ project_modules (exec (_discover_files Scenario.top) init)
     ∧ "pkg.a" ∈ deps_of
         (exec (analyze_node "pkg.b"
                  (ImportFrom (Some "a")
                     [{| alias_name := "f"; asname := None |}] 1))
            (exec (_discover_files Scenario.top) init)) "pkg.b")
  ∧ (("pkg" ∉ project_modules only_pkg_a)
     ∧ Py.startswith "pkg.a" "pkg" = true
     ∧ exec (analyze_node "main"
               (Import [{| alias_name := "pkg"; asname := None |}])) only_pkg_a
       = only_pkg_a)
  ∧ (("pkg.a.b" ∉ project_modules only_pkg_a)
     ∧ Py.startswith "pkg.a.b" "pkg.a" = true
     ∧ exec (analyze_node "main" (ImportFrom (Some "pkg.a.b") [] 0)) only_pkg_a
       = only_pkg_a).
Proof.
  assert (H0 : "pkg.a" ∈ project_modules only_pkg_a) by (vm_compute; set_solver).
  assert (H1 : "pkg" ∉ project_modules only_pkg_a) by (vm_compute; set_solver).
  assert (H2 : "pkg.a.b" ∉ project_modules only_pkg_a) by (vm_compute; set_solver).
  assert (H3 : "pkg.a" ∈ project_modules (exec (_discover_files Scenario.top) init)).
  { vm_compute. set_solver. }
  destruct (edge_iff_exact_module only_pkg_a "main")
    as (_ & Himport & _ & _ & _ & _ & Hprefix & Hext).
  destruct (edge_iff_exact_module (exec (_discover_files Scenario.top) init)
              "pkg.b") as (_ & _ & _ & Hrel & _).
  split; [|split; [|split]].
  - split; [exact H0|]. apply Himport. right. split; [|exact H0].
    eexists. split; [apply elem_of_cons; by left | reflexivity].
  - split; [reflexivity|]. split; [reflexivity|]. split; [exact H3|].
    apply (Hrel ["pkg"; "b"] "a" _ 1 "pkg.a");
      [reflexivity | done | by repeat constructor | lia | done |].
    right. split; [reflexivity | exact H3].
  - split; [exact H1|]. split; [reflexivity|]. apply Hprefix.
    intros al Hal. apply list_elem_of_singleton in Hal as ->. exact H1.
  - split; [exact H2|]. split; [reflexivity|]. exact (Hext "pkg.a.b" [] H2).
Defined.

(** C6, as stated, fails for a relative import whose target is empty. In
    the project made of [a.py], [a/x.py] and [a/b/c.py], the statement
    [from .. import x] of module [a.b.c] has an empty target and level 2, so
    it should resolve to the joined base [a], a known module (with the
    imported name as target, to [a.x], a known module too). The loop body
    makes no call for it: nothing is resolved and the state is unchanged,
    where a call of [_add_dependency] with that empty target adds the edge
    to [a]. *)
Lemma relative_import_without_module_is_not_resolved :
  let st := exec (_discover_files top_abc) init in
  project_modules st = {["a"; "a.x"; "a.b.c"]}
  ∧ spec_import_targets "a.b.c" import_from_dotdot = ["a"]
  ∧ spec_resolved "a.b.c" "x" 2 = "a.x"
  ∧ "a" ∈ project_modules st
  ∧ "a.x" ∈ project_modules st
  ∧ analyze_node "a.b.c" import_from_dotdot st = (Returned tt, st)
  ∧ deps_of (exec (analyze_node "a.b.c" import_from_dotdot) st) "a.b.c" = ∅
  ∧ deps_of (exec (_add_dependency "a.b.c" EmptyString 2) st) "a.b.c" = {["a"]}.
Proof.
  intros st.
  assert (Hpm : project_modules st = {["a"; "a.x"; "a.b.c"]})
    by (vm_compute; reflexivity).
  rewrite Hpm.
  split; [reflexivity|]. split; [reflexivity|]. split; [reflexivity|].
  split; [set_solver|]. split; [set_solver|].
  split; [reflexivity|]. split; vm_compute; reflexivity.
Qed.

(** C6, amended. Every module name is the join of its dotted segments. For
    a module whose dotted segments are [segs] and a level above 0,
    [_add_dependency] resolves a target that is not empty to the join of the
    segments left after dropping the last [level] of them followed by the
    target, and an empty target to the join of those segments alone; when
    [level] is at least the number of segments the base is empty and the
    result is the target itself. Neither the resolution nor the loop body
    ever raises. A relative from-import that names a module [m] records the
    edge to the target so resolved exactly when it is a project module, and
    leaves the state as it was otherwise; a from-import that names no module
    is not resolved at all. A level-2 import from [x] inside [a.b.c] resolves
    to [a.x] and records nothing when [a.x] is not a project module. *)
Theorem relative_import_resolution :
  (∀ module_name,
     Py.split "." module_name ≠ []
     ∧ Forall (lacks ".") (Py.split "." module_name)
     ∧ Py.join "." (Py.split "." module_name) = module_name)
  ∧ (∀ segs dep level,
       0 < level → segs ≠ [] → Forall (lacks ".") segs → dep ≠ EmptyString →
       resolved_dep (Py.join "." segs) dep level
       = Py.join "." (take (length segs - level) segs ++ [dep]))
  ∧ (∀ segs level,
       0 < level → segs ≠ [] → Forall (lacks ".") segs →
       resolved_dep (Py.join "." segs) EmptyString level
       = Py.join "." (take (length segs - level) segs))
  ∧ (∀ segs dep level,
       segs ≠ [] → Forall (lacks ".") segs → length segs ≤ level →
       resolved_dep (Py.join "." segs) dep level = dep)
  ∧ (∀ module_name dep level, returns (_add_dependency module_name dep level))
  ∧ (∀ module_name n, returns (analyze_node module_name n))
  ∧ (∀ st segs m names level,
       0 < level → segs ≠ [] → Forall (lacks ".") segs → m ≠ EmptyString →
       exec (analyze_node (Py.join "." segs) (ImportFrom (Some m) names level)) st
       = if decide (Py.join "." (take (length segs - level) segs ++ [m])
                    ∈ project_modules st)
         then add_edge (Py.join "." segs)
                (Py.join "." (take (length segs - level) segs ++ [m])) st
         else st)
  ∧ (∀ st module_name names level,
       analyze_node module_name (ImportFrom None names level) st
       = (Returned tt, st))
  ∧ resolved_dep "a.b.c" "x" 2 = "a.x"
  ∧ resolved_dep "a.b.c" EmptyString 1 = "a.b"
  ∧ (∀ st names,
       "a.x" ∉ project_modules st →
       exec (analyze_node "a.b.c" (ImportFrom (Some "x") names 2)) st = st).
Proof.
  split; [intros module_name; apply (split_segments ".")|].
  split; [|split; [|split; [|split; [|split; [|split; [|split; [|split;
    [|split]]]]]]]].
  - intros segs dep level Hlevel Hne Hall Hdep.
    by rewrite resolved_dep_join, truthy_nonempty.
  - intros segs level Hlevel Hne Hall.
    rewrite resolved_dep_join by done. simpl. by rewrite app_nil_r.
  - intros segs dep level Hne Hall Hlen.
    destruct segs as [|x segs]; [done|].
    rewrite resolved_dep_join by (done || simpl in *; lia).
    replace (length (x :: segs) - level) with 0 by lia.
    by destruct dep.
  - intros module_name dep level. apply returns_add_dependency.
  - intros module_name n. apply returns_analyze_node.
  - intros st segs m names level Hlevel Hne Hall Hm.
    rewrite analyze_import_from, exec_add_dependency_decide by done.
    by rewrite resolved_dep_join, truthy_nonempty.
  - done.
  - reflexivity.
  - reflexivity.
  - intros st names Hn. rewrite analyze_import_from by done.
    by apply add_dependency_unknown.
Qed.

Lemma relative_import_resolution_witness :
  ((0 < 2 ∧ ["a"; "b"; "c"] ≠ [] ∧ Forall (lacks ".") ["a"; "b"; "c"])
   ∧ resolved_dep (Py.join "." ["a"; "b"; "c"]) "x" 2
     = Py.join "." (take (length ["a"; "b"; "c"] - 2) ["a"; "b"; "c"] ++ ["x"]))
  ∧ (resolved_dep (Py.join "." ["a"; "b"; "c"]) EmptyString 1
     = Py.join "." (take (length ["a"; "b"; "c"] - 1) ["a"; "b"; "c"])
     ∧ Py.join "." (take (length ["a"; "b"; "c"] - 1) ["a"; "b"; "c"]) = "a.b")
  ∧ resolved_dep (Py.join "." ["a"; "b"; "c"]) "x" 5 = "x"
  ∧ resolved_dep (Py.join "." ["a"; "b"; "c"]) EmptyString 3 = EmptyString
  ∧ (("pkg.a" ∈ project_modules (exec (_discover_files Scenario.top) init))
     ∧ deps_of
         (exec (analyze_node (Py.join "." ["pkg"; "b"])
                  (ImportFrom (Some "a") [] 1))
            (exec (_discover_files Scenario.top) init)) "pkg.b" = {["pkg.a"]})
  ∧ exec (analyze_node "a.b.c" (ImportFrom (Some "x") [] 2)) only_pkg_a
    = only_pkg_a.
Proof.
  assert (Hall : Forall (lacks ".") ["a"; "b"; "c"]) by (by repeat constructor).
  assert (Hne : ["a"; "b"; "c"] ≠ @nil string) by done.
  assert (Hax : "a.x" ∉ project_modules only_pkg_a) by (vm_compute; set_solver).
  assert (Hpa : "pkg.a" ∈ project_modules (exec (_discover_files Scenario.top) init)).
  { vm_compute. set_solver. }
  destruct relative_import_resolution
    as (_ & H1 & H2 & H3 & _ & _ & H6 & _ & _ & _ & H10).
  split; [split; [by repeat split; try lia|]|].
  { exact (H1 ["a"; "b"; "c"] "x" 2 ltac:(lia) Hne Hall ltac:(done)). }
  split; [split; [|reflexivity]|].
  { exact (H2 ["a"; "b"; "c"] 1 ltac:(lia) Hne Hall). }
  split; [exact (H3 ["a"; "b"; "c"] "x" 5 Hne Hall ltac:(simpl; lia))|].
  split; [exact (H3 ["a"; "b"; "c"] EmptyString 3 Hne Hall ltac:(simpl; lia))|].
  split; [|exact (H10 only_pkg_a [] Hax)].
  split; [exact Hpa|].
  rewrite (H6 (exec (_discover_files Scenario.top) init) ["pkg"; "b"] "a" [] 1
             ltac:(lia) ltac:(done) ltac:(by repeat constructor) ltac:(done)).
  vm_compute. reflexivity.
Defined.

(** ** Data files (C9) *)

Section Discovery.

Lemma fold_left_establishes {A} (Q : auditor → Prop)
    (f : auditor → A → auditor) (l : list A) (x : A) st :
  x ∈ l →
  (∀ s, Q (f s x)) → (∀ s y, Q s → Q (f s y)) → Q (fold_left f l st).
Proof.
  intros Hx Hest Hpres. revert st.
  induction l as [|y l IH]; intros st; [by apply elem_of_nil in Hx|].
  simpl. apply elem_of_cons in Hx as [<-|Hx].
  - apply fold_left_preserves; [exact Hpres | apply Hest].
  - by apply IH.
Qed.

Lemma discover_file_keeps root file p st :
  p ∈ data_files st → p ∈ data_files (exec (discover_file root file) st).
Proof.
  intros Hp. unfold discover_file.
  destruct (Py.endswith file ".py"); [done|].
  destruct (Py.endswith_any file data_extensions); [|done].
  simpl. apply elem_of_app. by left.
Qed.

Lemma discover_file_data root file st :
  Py.endswith file ".py" = false →
  Py.endswith_any file data_extensions = true →
  exec (discover_file root file) st = add_data_file (root ++ [file]) st.
Proof.
  intros Hpy Hdata. unfold discover_file. by rewrite Hpy, Hdata.
Qed.

Lemma discover_dir_exec root files st :
  exec (for_each files (discover_file root)) st
  = fold_left (λ s file, exec (discover_file root file) s) files st.
Proof.
  unfold exec at 1.
  by rewrite for_each_fold by (intros f; apply returns_discover_file).
Qed.

Lemma discover_files_exec top st :
  exec (_discover_files top) st
  = fold_left
      (λ s entry, exec (for_each (snd entry) (discover_file (fst entry))) s)
      (os_walk keep_dir top) st.
Proof.
  unfold exec at 1, _discover_files.
  by rewrite for_each_fold
    by (intros e; apply returns_for_each, returns_discover_file).
Qed.

Lemma data_file_recorded top st root files file :
  (root, files) ∈ os_walk keep_dir top → file ∈ files →
  Py.endswith file ".py" = false →
  Py.endswith_any file data_extensions = true →
  root ++ [file] ∈ data_files (exec (_discover_files top) st).
Proof.
  intros Hentry Hfile Hpy Hdata. rewrite discover_files_exec.
  apply (fold_left_establishes (λ s, root ++ [file] ∈ data_files s)
           _ _ (root, files)); [done| |].
  - intros s. simpl. rewrite discover_dir_exec.
    apply (fold_left_establishes (λ s, root ++ [file] ∈ data_files s)
             _ _ file); [done| |].
    + intros s'. rewrite discover_file_data by done.
      simpl. apply elem_of_app. right. by apply list_elem_of_singleton.
    + intros s' f. apply discover_file_keeps.
  - intros s [r fs] Hs. simpl. rewrite discover_dir_exec.
    apply (fold_left_preserves (λ s, root ++ [file] ∈ data_files s)); [|done].
    intros s' f. apply discover_file_keeps.
Qed.

Lemma endswith_any_data name :
  Py.endswith_any name data_extensions = true →
  Py.str_in ".csv" name = true ∨ Py.str_in ".xlsx" name = true
  ∨ Py.str_in ".yaml" name = true ∨ Py.endswith name ".json" = true.
Proof.
  unfold Py.endswith_any, data_extensions. simpl.
  rewrite !orb_true_iff.
  intros [H|[H|[H|[H|H]]]]; try done; auto using endswith_str_in.
Qed.

End Discovery.

(** C9, as stated, fails on the order of the last two kinds: a file named
    [report.yaml.json] is a data file because it ends in [.json], and the
    report shows it as [Config], since [.yaml] is looked for before the
    structured-data default. *)
Lemma config_is_tried_before_structured_data :
  Py.endswith "report.yaml.json" ".py" = false
  ∧ Py.endswith "report.yaml.json" ".json" = true
  ∧ data_flow_rows
      (exec (_discover_files [File "report.yaml.json" None]) init)
    = [("`report.yaml.json`", "Config")]
  ∧ spec_file_type "report.yaml.json" = "JSON Data".
Proof. repeat split; vm_compute; reflexivity. Qed.

(** C9, amended. Every file met by the walk that is not a source file and
    whose name ends with a recognized data extension is recorded among the
    data files, and its kind is the first that applies of: tabular when the
    name contains [.csv], spreadsheet when it contains [.xlsx], config when
    it contains [.yaml], structured data otherwise, in which case the name
    ends with [.json]. *)
Theorem data_file_recorded_and_classified :
  (∀ top st root files file,
     (root, files) ∈ os_walk keep_dir top → file ∈ files →
     Py.endswith file ".py" = false →
     Py.endswith_any file data_extensions = true →
     root ++ [file] ∈ data_files (exec (_discover_files top) st))
  ∧ (∀ st, data_flow_rows st
           = map (λ p, ("`" +:+ Py.join "/" p +:+ "`", file_type (path_name p)))
               (data_files st))
  ∧ (∀ name,
       Py.endswith_any name data_extensions = true →
       (Py.str_in ".csv" name = true → file_type name = "Tabular Data")
       ∧ (Py.str_in ".csv" name = false → Py.str_in ".xlsx" name = true →
          file_type name = "Excel Sheet")
       ∧ (Py.str_in ".csv" name = false → Py.str_in ".xlsx" name = false →
          Py.str_in ".yaml" name = true → file_type name = "Config")
       ∧ (Py.str_in ".csv" name = false → Py.str_in ".xlsx" name = false →
          Py.str_in ".yaml" name = false →
          file_type name = "JSON Data" ∧ Py.endswith name ".json" = true)).
Proof.
  split; [exact data_file_recorded|]. split; [done|].
  intros name Hdata. unfold file_type.
  split; [by intros ->|]. split; [by intros -> ->|].
  split; [by intros -> -> ->|].
  intros Hcsv Hxlsx Hyaml. rewrite Hcsv, Hxlsx, Hyaml. split; [done|].
  destruct (endswith_any_data name Hdata) as [?|[?|[?|?]]]; congruence.
Qed.

Lemma data_file_recorded_and_classified_witness :
  (([], ["report.yaml.json"]) ∈ os_walk keep_dir [File "report.yaml.json" None]
   ∧ "report.yaml.json" ∈ ["report.yaml.json"]
   ∧ Py.endswith "report.yaml.json" ".py" = false
   ∧ Py.endswith_any "report.yaml.json" data_extensions = true)
  ∧ [] ++ ["report.yaml.json"]
      ∈ data_files (exec (_discover_files [File "report.yaml.json" None]) init)
  ∧ file_type "report.yaml.json" = "Config".
Proof.
  assert (H1 : ([], ["report.yaml.json"])
                 ∈ os_walk keep_dir [File "report.yaml.json" None]).
  { vm_compute. apply elem_of_cons. by left. }
  assert (H2 : "report.yaml.json" ∈ ["report.yaml.json"]).
  { apply elem_of_cons. by left. }
  destruct data_file_recorded_and_classified as (Hrec & _ & Hkind).
  split; [by repeat split|]. split.
  - exact (Hrec [File "report.yaml.json" None] init [] ["report.yaml.json"]
             "report.yaml.json" H1 H2 eq_refl eq_refl).
  - destruct (Hkind "report.yaml.json" eq_refl) as (_ & _ & H & _).
    exact (H eq_refl eq_refl eq_refl).
Defined.

(** ** Summary statistics (C10) *)

(** C10. The average of [generate_summary_stats] returns from every state:
    the division runs only when there is at least one function record; with
    no function record the average is the integer 0. *)
Theorem average_complexity_total :
  returns avg_complexity
  ∧ (∀ st, size (functions st) = 0 →
           avg_complexity st = (Returned (PyInt 0), st)).
Proof.
  split.
  - intros st. unfold avg_complexity, bind, get.
    destruct (size (functions st)) as [|k]; simpl; eauto.
  - intros st Hsize. unfold avg_complexity, bind, get. by rewrite Hsize.
Qed.

Lemma average_complexity_total_witness :
  size (functions init) = 0
  ∧ avg_complexity init = (Returned (PyInt 0), init).
Proof.
  split; [reflexivity|].
  destruct average_complexity_total as (_ & H).
  exact (H init eq_refl).
Defined.

(** ** The two-file project (C1) *)

(** C1, as stated, fails on the edge: the statement [from . import a] has no
    module name, and the loop body calls [_add_dependency] only for a
    from-import that has one, so nothing is recorded for [pkg.b]. *)
Lemma from_dot_import_records_no_edge :
  read_text Scenario.top ["pkg"; "b.py"] = Some Scenario.text_b
  ∧ Scenario.parse Scenario.text_b = Some Scenario.tree_b
  ∧ deps_of (exec (run Scenario.top Scenario.parse utf8_terminal) init) "pkg.b" = ∅
  ∧ ("pkg.a" ∉ deps_of (exec (run Scenario.top Scenario.parse utf8_terminal) init) "pkg.b").
Proof.
  assert (H : deps_of (exec (run Scenario.top Scenario.parse utf8_terminal) init) "pkg.b" = ∅).
  { vm_compute. reflexivity. }
  split; [reflexivity|]. split; [reflexivity|]. split; [exact H|].
  rewrite H. apply not_elem_of_empty.
Qed.

Section TwoFiles.

Variable parse : string → option node.
Variable rt : runtime.
Hypothesis parse_a : parse Scenario.text_a = Some Scenario.tree_a.
Hypothesis parse_b : parse Scenario.text_b = Some Scenario.tree_b.

Lemma read_a : read_text Scenario.top ["pkg"; "a.py"] = Some Scenario.text_a.
Proof. reflexivity. Qed.

Lemma read_b : read_text Scenario.top ["pkg"; "b.py"] = Some Scenario.text_b.
Proof. reflexivity. Qed.

Lemma read_a' : read_text Scenario.top' ["pkg"; "a.py"] = Some Scenario.text_a.
Proof. reflexivity. Qed.

Lemma read_b' : read_text Scenario.top' ["pkg"; "b.py"] = Some Scenario.text_b.
Proof. reflexivity. Qed.

Lemma scenario_parse_a : Scenario.parse Scenario.text_a = Some Scenario.tree_a.
Proof. reflexivity. Qed.

Lemma scenario_parse_b : Scenario.parse Scenario.text_b = Some Scenario.tree_b.
Proof. reflexivity. Qed.

Lemma scenario_files_parse top (parse' : string → option node) rt' p :
  top = Scenario.top ∨ top = Scenario.top' →
  parse' Scenario.text_a = Some Scenario.tree_a →
  parse' Scenario.text_b = Some Scenario.tree_b →
  p ∈ python_files (exec (_discover_files top) init) →
  warning_printed top parse' rt' p = true.
Proof.
  intros Htop Ha Hb Hp. unfold warning_printed, failure.
  destruct Htop as [-> | ->]; vm_compute in Hp;
    repeat (apply elem_of_cons in Hp as [-> | Hp]);
    try (by apply elem_of_nil in Hp);
    rewrite ?read_a, ?read_b, ?read_a', ?read_b', ?Ha, ?Hb; reflexivity.
Qed.

Lemma run_scenario_parse top :
  top = Scenario.top ∨ top = Scenario.top' →
  exec (run top parse rt) init
  = exec (run top Scenario.parse utf8_terminal) init.
Proof.
  intros Htop. unfold exec.
  rewrite (run_exec top parse rt)
    by (intros p Hp; by apply scenario_files_parse).
  rewrite (run_exec top Scenario.parse utf8_terminal)
    by (intros p Hp; by apply scenario_files_parse).
  simpl.
  assert (Hfile : ∀ p st,
             p ∈ python_files (exec (_discover_files top) init) →
             exec (_analyze_file top parse rt p) st
             = exec (_analyze_file top Scenario.parse utf8_terminal p) st).
  { intros p st Hp. rewrite !analyze_file_exec.
    destruct Htop as [-> | ->]; vm_compute in Hp;
      repeat (apply elem_of_cons in Hp as [-> | Hp]);
      try (by apply elem_of_nil in Hp);
      rewrite ?read_a, ?read_b, ?read_a', ?read_b';
      rewrite ?parse_a, ?parse_b, ?scenario_parse_a, ?scenario_parse_b;
      reflexivity. }
  revert Hfile. generalize (python_files (exec (_discover_files top) init)).
  generalize (exec (_discover_files top) init).
  intros st files. revert st. induction files as [|p files IH]; intros st H.
  - done.
  - unfold analyze_files in *. simpl.
    rewrite H by (apply elem_of_cons; by left).
    apply IH. intros q s Hq. apply H. apply elem_of_cons. by right.
Qed.

End TwoFiles.

(** C1, amended. For the project made of [pkg/a.py] and [pkg/b.py], in
    either listing order and with any parser that yields the two trees, the
    pass produces the module set [{pkg.a, pkg.b}], the function record
    [pkg.a.f] with complexity 2, and no dependency edge at all. *)
Theorem two_file_project parse rt top :
  parse Scenario.text_a = Some Scenario.tree_a →
  parse Scenario.text_b = Some Scenario.tree_b →
  top = Scenario.top ∨ top = Scenario.top' →
  project_modules (exec (run top parse rt) init) = {["pkg.a"; "pkg.b"]}
  ∧ functions (exec (run top parse rt) init) !! "pkg.a.f"
    = Some {| complexity := 2 |}
  ∧ dependencies (exec (run top parse rt) init) = ∅.
Proof.
  intros Ha Hb Htop. rewrite (run_scenario_parse parse rt Ha Hb top Htop).
  destruct Htop as [-> | ->]; repeat split; vm_compute; reflexivity.
Qed.

Lemma two_file_project_witness :
  (Scenario.parse Scenario.text_a = Some Scenario.tree_a
   ∧ Scenario.parse Scenario.text_b = Some Scenario.tree_b)
  ∧ project_modules (exec (run Scenario.top Scenario.parse utf8_terminal) init)
    = {["pkg.a"; "pkg.b"]}
  ∧ functions (exec (run Scenario.top Scenario.parse utf8_terminal) init) !! "pkg.a.f"
    = Some {| complexity := 2 |}
  ∧ dependencies (exec (run Scenario.top Scenario.parse utf8_terminal) init) = ∅.
Proof.
  split; [by split|].
  exact (two_file_project Scenario.parse utf8_terminal Scenario.top
           eq_refl eq_refl
           (or_introl eq_refl)).
Defined.


(** * Further properties *)

(** ** Module names *)

Section ModuleNames.

Lemma replace_char_app a b s t :
  Py.replace_char a b (s +:+ t) = Py.replace_char a b s +:+ Py.replace_char a b t.
Proof.
  induction s as [|x s IH]; [done|].
  rewrite app_String. simpl. by rewrite IH, app_String.
Qed.

Lemma replace_char_lacks a b s : lacks a s → Py.replace_char a b s = s.
Proof.
  induction s as [|x s IH]; [done|]. intros [Hne Hs]%lacks_cons.
  simpl. rewrite IH by done.
  by destruct (Ascii.eqb_spec x a).
Qed.

(** Replacing the separator in a joined path joins with the new separator. *)
Lemma replace_char_join a b segs :
  Forall (lacks a) segs →
  Py.replace_char a b (Py.join (String a EmptyString) segs)
  = Py.join (String b EmptyString) segs.
Proof.
  induction segs as [|x segs IH]; [done|]. intros Hall.
  inversion Hall as [|? ? Hx Hsegs]; subst.
  destruct segs as [|y segs]; [by apply replace_char_lacks|].
  rewrite !join_cons, !replace_char_app, IH by done.
  rewrite replace_char_lacks by done. simpl.
  by rewrite Ascii.eqb_refl.
Qed.

Lemma join_snoc_app sep segs x y :
  Py.join sep (segs ++ [x +:+ y]) = Py.join sep (segs ++ [x]) +:+ y.
Proof.
  induction segs as [|z segs IH]; [done|].
  destruct segs as [|z' segs]; simpl app in *.
  - by rewrite !join_cons, !app_assoc_str.
  - rewrite (join_cons sep z), (join_cons sep z z'), IH.
    by rewrite !app_assoc_str.
Qed.

Lemma join_snoc_merge sep segs x y :
  Py.join sep (segs ++ [x; y]) = Py.join sep (segs ++ [x +:+ sep +:+ y]).
Proof.
  induction segs as [|z segs IH]; [done|].
  destruct segs as [|z' segs]; simpl app in *.
  - by rewrite !join_cons.
  - by rewrite (join_cons sep z), (join_cons sep z z'), IH.
Qed.

Lemma list_ascii_of_string_app s t :
  list_ascii_of_string (s +:+ t)
  = list_ascii_of_string s ++ list_ascii_of_string t.
Proof.
  induction s as [|x s IH]; [done|]. rewrite app_String. simpl. by rewrite IH.
Qed.

(** Cutting a suffix of three characters off. *)
Lemma str_slice_to_suffix s t :
  String.length t = 3 → Py.str_slice_to (-3) (s +:+ t) = s.
Proof.
  intros Ht. unfold Py.str_slice_to, Py.slice_to.
  rewrite list_ascii_of_string_app. simpl.
  rewrite length_app.
  assert (Hlen : ∀ u, length (list_ascii_of_string u) = String.length u).
  { intros u. induction u as [|c u IHu]; simpl; congruence. }
  rewrite !Hlen, Ht.
  replace (Z.to_nat (Z.max 0 (Z.of_nat (String.length s + 3) + -3)))
    with (length (list_ascii_of_string s)) by (rewrite Hlen; lia).
  by rewrite take_app_length, string_of_list_ascii_of_string.
Qed.

Lemma lacks_app c s t : lacks c s → lacks c t → lacks c (s +:+ t).
Proof.
  intros Hs Ht. induction s as [|x s IH]; [done|].
  apply lacks_cons in Hs as [Hne Hs]. rewrite app_String.
  by apply lacks_cons_intro, IH.
Qed.

Lemma module_name_of_snoc dirs stem :
  Forall (lacks "/") dirs → lacks "/" stem →
  module_name_of (dirs ++ [stem +:+ ".py"]) = Py.join "." (dirs ++ [stem]).
Proof.
  intros Hdirs Hstem. unfold module_name_of.
  rewrite join_snoc_app, replace_char_app, replace_char_join.
  - by apply str_slice_to_suffix.
  - apply Forall_app. split; [done|]. by constructor.
Qed.

End ModuleNames.

(** X1. The module name of a source file is the dotted join of its
    directories and of its file name without the extension, provided no
    segment contains the path separator; a file at the root gives the bare
    stem. *)
Theorem module_name_of_source_file dirs stem :
  Forall (lacks "/") dirs → lacks "/" stem →
  module_name_of (dirs ++ [stem +:+ ".py"]) = Py.join "." (dirs ++ [stem])
  ∧ module_name_of [stem +:+ ".py"] = stem.
Proof.
  intros Hdirs Hstem. split; [by apply module_name_of_snoc|].
  by apply (module_name_of_snoc []); [constructor|].
Qed.

Lemma module_name_of_source_file_witness :
  (Forall (lacks "/") ["pkg"; "sub"] ∧ lacks "/" "mod")
  ∧ module_name_of (["pkg"; "sub"] ++ ["mod" +:+ ".py"])
    = Py.join "." (["pkg"; "sub"] ++ ["mod"])
  ∧ module_name_of ["mod" +:+ ".py"] = "mod".
Proof.
  assert (H1 : Forall (lacks "/") ["pkg"; "sub"]) by (by repeat constructor).
  assert (H2 : lacks "/" "mod") by done.
  split; [by split|].
  exact (module_name_of_source_file ["pkg"; "sub"] "mod" H1 H2).
Defined.

(** X2. Module names are not unique per file: a file [stem.py] in a
    directory [d] and a file named [d.stem.py] beside that directory have
    the same module name, although their paths differ. *)
Theorem module_name_collision dirs d stem :
  Forall (lacks "/") dirs → lacks "/" d → lacks "/" stem →
  dirs ++ [d; stem +:+ ".py"] ≠ dirs ++ [d +:+ "." +:+ stem +:+ ".py"]
  ∧ module_name_of (dirs ++ [d; stem +:+ ".py"])
    = module_name_of (dirs ++ [d +:+ "." +:+ stem +:+ ".py"]).
Proof.
  intros Hdirs Hd Hstem. split.
  - intros Heq. apply (f_equal length) in Heq.
    rewrite !length_app in Heq. simpl in Heq. lia.
  - replace (d +:+ "." +:+ stem +:+ ".py") with ((d +:+ "." +:+ stem) +:+ ".py")
      by (by rewrite !app_assoc_str).
    replace (dirs ++ [d; stem +:+ ".py"]) with ((dirs ++ [d]) ++ [stem +:+ ".py"])
      by (by rewrite <- app_assoc).
    rewrite (module_name_of_snoc (dirs ++ [d]) stem);
      [|apply Forall_app; split; [done | by constructor] | done].
    rewrite (module_name_of_snoc dirs (d +:+ "." +:+ stem));
      [|done | by apply lacks_app, lacks_app].
    rewrite <- app_assoc. apply (join_snoc_merge "." dirs d stem).
Qed.

Lemma module_name_collision_witness :
  (Forall (lacks "/") [] ∧ lacks "/" "a" ∧ lacks "/" "b")
  ∧ [] ++ ["a"; "b" +:+ ".py"] ≠ [] ++ ["a" +:+ "." +:+ "b" +:+ ".py"]
  ∧ module_name_of ([] ++ ["a"; "b" +:+ ".py"])
    = module_name_of ([] ++ ["a" +:+ "." +:+ "b" +:+ ".py"]).
Proof.
  split; [by repeat split|].
  exact (module_name_collision [] "a" "b" ltac:(constructor) eq_refl eq_refl).
Defined.

(** ** Discovery *)

Section DiscoveryResult.

Lemma path_name_snoc root file : path_name (root ++ [file]) = file.
Proof. unfold path_name. by rewrite last_snoc. Qed.

Lemma discovered_refl st : discovered [] st st.
Proof.
  unfold discovered. simpl. rewrite !app_nil_r.
  repeat split; try done. set_solver.
Qed.

Lemma discovered_app l1 l2 st1 st2 st3 :
  discovered l1 st1 st2 → discovered l2 st2 st3 → discovered (l1 ++ l2) st1 st3.
Proof.
  unfold discovered.
  intros (P1 & M1 & D1 & F1 & C1 & E1 & X1) (P2 & M2 & D2 & F2 & C2 & E2 & X2).
  rewrite !filter_app, fmap_app, list_to_set_app_L.
  rewrite P2, P1, M2, M1, D2, D1, F2, F1, C2, C1, E2, E1, X2, X1.
  rewrite !app_assoc. repeat split; try done. set_solver.
Qed.

Lemma discover_file_discovered root file st :
  discovered [root ++ [file]] st (exec (discover_file root file) st).
Proof.
  unfold discovered, discover_file, is_python_file, is_data_file.
  rewrite !filter_cons, !filter_nil, path_name_snoc.
  destruct (Py.endswith file ".py") eqn:Hpy.
  - rewrite decide_True by done.
    rewrite decide_False by (intros [? _]; done).
    simpl. rewrite app_nil_r. repeat split; try done. set_solver.
  - rewrite decide_False by done.
    destruct (Py.endswith_any file data_extensions) eqn:Hdata.
    + rewrite decide_True by done. simpl. rewrite app_nil_r.
      repeat split; try done. set_solver.
    + rewrite decide_False by (intros [_ ?]; done).
      simpl. rewrite !app_nil_r. repeat split; try done. set_solver.
Qed.

Lemma discover_dir_discovered root files st :
  discovered (map (λ file, root ++ [file]) files) st
    (exec (for_each files (discover_file root)) st).
Proof.
  rewrite discover_dir_exec. revert st.
  induction files as [|file files IH]; intros st; [apply discovered_refl|].
  simpl. apply (discovered_app [root ++ [file]] _ _ _ _
                  (discover_file_discovered root file st)), IH.
Qed.

Lemma discover_files_discovered top st :
  discovered (walked_files top) st (exec (_discover_files top) st).
Proof.
  rewrite discover_files_exec. unfold walked_files.
  generalize (os_walk keep_dir top). intros entries. revert st.
  induction entries as [|entry entries IH]; intros st; [apply discovered_refl|].
  simpl. eapply discovered_app; [apply discover_dir_discovered | apply IH].
Qed.

(** [os.walk] never reports a directory below a pruned one. *)
Lemma os_walk_entry_kept keep :
  ∀ e root r fs,
    Forall (λ d, keep d = true) root →
    (r, fs) ∈ os_walk_entry keep root e →
    Forall (λ d, keep d = true) r.
Proof.
  fix IH 1. intros [name text|d entries] root r fs Hroot Hin; simpl in Hin.
  - by apply elem_of_nil in Hin.
  - destruct (keep d) eqn:Hd; [|by apply elem_of_nil in Hin].
    assert (Hroot' : Forall (λ d, keep d = true) (root ++ [d])).
    { apply Forall_app. split; [done|]. by constructor. }
    apply elem_of_cons in Hin as [[= -> ->]|Hin]; [done|].
    induction entries as [|e es IHes]; simpl in Hin.
    + by apply elem_of_nil in Hin.
    + apply elem_of_app in Hin as [Hin|Hin].
      * by apply (IH e (root ++ [d]) r fs).
      * by apply IHes.
Qed.

Lemma os_walk_kept keep top r fs :
  (r, fs) ∈ os_walk keep top → Forall (λ d, keep d = true) r.
Proof.
  unfold os_walk. intros [[= -> ->]|Hin]%elem_of_cons; [constructor|].
  induction top as [|e es IH]; simpl in Hin.
  - by apply elem_of_nil in Hin.
  - apply elem_of_app in Hin as [Hin|Hin]; [|by apply IH].
    apply (os_walk_entry_kept keep e [] r fs); [constructor | done].
Qed.

Lemma walked_files_kept top p :
  p ∈ walked_files top →
  ∃ root file, p = root ++ [file] ∧ Forall (λ d, d ∉ excluded_dirs) root.
Proof.
  unfold walked_files. intros Hp.
  apply list_elem_of_In, in_flat_map in Hp as ([r fs] & Hentry & Hp).
  apply in_map_iff in Hp as (file & <- & _). simpl.
  exists r, file. split; [done|].
  apply list_elem_of_In, os_walk_kept in Hentry.
  eapply Forall_impl; [exact Hentry|]. intros d Hd. unfold keep_dir in Hd.
  apply negb_true_iff, bool_decide_eq_false in Hd. done.
Qed.

End DiscoveryResult.

(** X3. Discovery appends to [python_files] exactly the files reported by
    the walk whose name ends in [.py], in the order of the walk, and adds
    exactly their module names to [project_modules]; starting from the
    initial state, the project modules are the module names of the
    discovered source files. *)
Theorem discovery_records_source_files top :
  (∀ st,
     python_files (exec (_discover_files top) st)
     = python_files st ++ filter is_python_file (walked_files top)
     ∧ project_modules (exec (_discover_files top) st)
       = project_modules st
         ∪ list_to_set (module_name_of <$> filter is_python_file (walked_files top)))
  ∧ (∀ m, m ∈ project_modules (exec (_discover_files top) init)
          ↔ ∃ p, p ∈ python_files (exec (_discover_files top) init)
                 ∧ m = module_name_of p).
Proof.
  split.
  - intros st. destruct (discover_files_discovered top st) as (HP & HM & _).
    done.
  - intros m. destruct (discover_files_discovered top init) as (-> & -> & _).
    simpl. rewrite elem_of_union, elem_of_list_to_set, list_elem_of_fmap.
    split.
    + intros [?%not_elem_of_empty|(p & -> & Hp)]; [done|]. by exists p.
    + intros (p & Hp & ->). right. by exists p.
Qed.

(** X4. Discovery appends to [data_files] exactly the files reported by the
    walk whose name does not end in [.py] and ends in one of the four data
    extensions, in the order of the walk, and leaves the function records,
    class records, entry points and dependencies untouched. *)
Theorem discovery_records_data_files top st :
  data_files (exec (_discover_files top) st)
  = data_files st ++ filter is_data_file (walked_files top)
  ∧ functions (exec (_discover_files top) st) = functions st
  ∧ classes (exec (_discover_files top) st) = classes st
  ∧ main_entry_points (exec (_discover_files top) st) = main_entry_points st
  ∧ dependencies (exec (_discover_files top) st) = dependencies st.
Proof.
  destruct (discover_files_discovered top st) as (_ & _ & HD & HF & HC & HE & HX).
  done.
Qed.

(** X5. No file below an excluded directory is ever discovered: every path
    recorded by a discovery from the initial state, source or data, consists
    of directories that are not in the exclusion list, followed by the file
    name. *)
Theorem excluded_directories_are_skipped top p :
  p ∈ python_files (exec (_discover_files top) init)
  ∨ p ∈ data_files (exec (_discover_files top) init) →
  ∃ root file, p = root ++ [file] ∧ Forall (λ d, d ∉ excluded_dirs) root.
Proof.
  destruct (discover_files_discovered top init) as (-> & _ & -> & _).
  simpl. intros [Hp|Hp]; apply list_elem_of_filter in Hp as [_ Hp];
    by apply (walked_files_kept top).
Qed.

Lemma excluded_directories_are_skipped_witness :
  ["src"; "x.py"]
    ∈ python_files
        (exec (_discover_files
                 [Dir ".venv" [File "y.py" None]; Dir "src" [File "x.py" None]])
           init)
  ∧ python_files
      (exec (_discover_files
               [Dir ".venv" [File "y.py" None]; Dir "src" [File "x.py" None]])
         init) = [["src"; "x.py"]]
  ∧ ∃ root file, ["src"; "x.py"] = root ++ [file]
                 ∧ Forall (λ d, d ∉ excluded_dirs) root.
Proof.
  assert (H : ["src"; "x.py"]
                ∈ python_files
                    (exec (_discover_files
                             [Dir ".venv" [File "y.py" None];
                              Dir "src" [File "x.py" None]]) init)).
  { vm_compute. apply elem_of_cons. by left. }
  split; [exact H|]. split; [reflexivity|].
  exact (excluded_directories_are_skipped _ _ (or_introl H)).
Defined.

(** ** What the pass keeps true of the store *)

Section StoreInvariant.

Variable top : list fs_entry.
Variable parse : string → option node.
Variable rt : runtime.

Lemma complexity_of_pos n : 1 ≤ complexity_of n.
Proof. unfold complexity_of. lia. Qed.

Lemma store_wf_add_edge a b st :
  a ∈ project_modules st → b ∈ project_modules st →
  store_wf st → store_wf (add_edge a b st).
Proof.
  intros Ha Hb (Hdeps & Hentries & Hfuns).
  split; [|split]; [|exact Hentries|exact Hfuns].
  intros a' s. simpl. rewrite lookup_insert. case_decide as Heq.
  - intros [= <-]. subst a'. split; [set_solver|]. split; [|done].
    destruct (dependencies st !! a) as [s0|] eqn:Hs0; simpl; [|set_solver].
    destruct (Hdeps a s0 Hs0) as (_ & Hsub & _). set_solver.
  - apply Hdeps.
Qed.

Lemma store_wf_add_dependency a d lv st :
  a ∈ project_modules st → store_wf st →
  store_wf (exec (_add_dependency a d lv) st).
Proof.
  intros Ha Hwf. rewrite exec_add_dependency.
  destruct (known_module st _) eqn:Hk; [|done].
  apply known_module_spec in Hk. by apply store_wf_add_edge.
Qed.

Lemma store_wf_analyze_node m n st :
  m ∈ project_modules st → store_wf st →
  store_wf (exec (analyze_node m n) st).
Proof.
  intros Hm Hwf. destruct n; try done.
  - destruct Hwf as (Hdeps & Hentries & Hfuns).
    split; [exact Hdeps|]. split; [exact Hentries|].
    intros key r. simpl. rewrite lookup_insert. case_decide.
    + intros [= <-]. apply complexity_of_pos.
    + apply Hfuns.
  - unfold analyze_node, exec.
    rewrite for_each_fold by (intros al; apply returns_add_dependency). simpl.
    apply (fold_left_preserves
             (λ s, store_wf s ∧ project_modules s = project_modules st));
      [|done].
    intros s al [Hs Hpm]. split.
    + apply store_wf_add_dependency; [by rewrite Hpm | done].
    + destruct (add_dependency_frame m (alias_name al) 0 s) as (_ & -> & _).
      done.
  - unfold analyze_node. destruct module as [md|]; [|done].
    destruct (Py.truthy md); [|done]. by apply store_wf_add_dependency.
Qed.

Lemma store_wf_analyze_nodes m l st :
  m ∈ project_modules st → store_wf st → store_wf (analyze_nodes m l st).
Proof.
  intros Hm Hwf. unfold analyze_nodes.
  apply (fold_left_preserves
           (λ s, store_wf s ∧ project_modules s = project_modules st)); [|done].
  intros s n [Hs Hpm]. split.
  - apply store_wf_analyze_node; [by rewrite Hpm | done].
  - destruct (analyze_node_frame m n s) as (_ & -> & _). done.
Qed.

Lemma analyze_file_project_modules p st :
  project_modules (exec (_analyze_file top parse rt p) st) = project_modules st.
Proof.
  rewrite analyze_file_exec.
  destruct (read_text top p) as [content|]; [|done].
  destruct (parse content) as [tree|]; [|done].
  unfold analyze_tree.
  destruct (analyze_nodes_frame (module_name_of p) (walk tree)
              (if Py.str_in main_guard content
               then add_entry_point (module_name_of p) st else st))
    as (_ & -> & _).
  by destruct (Py.str_in main_guard content).
Qed.

Lemma analyze_file_data_files p st :
  data_files (exec (_analyze_file top parse rt p) st) = data_files st.
Proof.
  rewrite analyze_file_exec.
  destruct (read_text top p) as [content|]; [|done].
  destruct (parse content) as [tree|]; [|done].
  unfold analyze_tree.
  destruct (analyze_nodes_frame (module_name_of p) (walk tree)
              (if Py.str_in main_guard content
               then add_entry_point (module_name_of p) st else st))
    as (_ & _ & _ & ->).
  by destruct (Py.str_in main_guard content).
Qed.

Lemma store_wf_analyze_file p st :
  module_name_of p ∈ project_modules st → store_wf st →
  store_wf (exec (_analyze_file top parse rt p) st).
Proof.
  intros Hm Hwf. rewrite analyze_file_exec.
  destruct (read_text top p) as [content|]; [|done].
  destruct (parse content) as [tree|]; [|done].
  unfold analyze_tree. apply store_wf_analyze_nodes.
  - by destruct (Py.str_in main_guard content).
  - destruct (Py.str_in main_guard content); [|done].
    destruct Hwf as (Hdeps & Hentries & Hfuns).
    split; [exact Hdeps|]. split; [|exact Hfuns].
    intros e. simpl. rewrite elem_of_app, list_elem_of_singleton.
    intros [He| ->]; [by apply Hentries | done].
Qed.

Lemma store_wf_discovered : store_wf (exec (_discover_files top) init).
Proof.
  destruct (discover_files_discovered top init)
    as (_ & _ & _ & HF & _ & HE & HX).
  unfold store_wf. rewrite HF, HE, HX. simpl.
  split; [|split].
  - intros a s. by rewrite lookup_empty.
  - intros e. by intros ?%elem_of_nil.
  - intros key r. by rewrite lookup_empty.
Qed.

Lemma discovered_files_are_modules p :
  p ∈ python_files (exec (_discover_files top) init) →
  module_name_of p ∈ project_modules (exec (_discover_files top) init).
Proof.
  destruct (discover_files_discovered top init) as (-> & -> & _).
  simpl. intros Hp. apply elem_of_union. right.
  apply elem_of_list_to_set, list_elem_of_fmap. by exists p.
Qed.

Lemma run_project_modules st :
  project_modules (exec (run top parse rt) st)
  = project_modules (exec (_discover_files top) st).
Proof.
  apply (run_preserves top parse rt
           (λ s, project_modules s
                 = project_modules (exec (_discover_files top) st))); [|done].
  intros p s _ Hs. by rewrite analyze_file_project_modules.
Qed.

Lemma run_data_files st :
  data_files (exec (run top parse rt) st)
  = data_files (exec (_discover_files top) st).
Proof.
  apply (run_preserves top parse rt
           (λ s, data_files s = data_files (exec (_discover_files top) st)));
    [|done].
  intros p s _ Hs. by rewrite analyze_file_data_files.
Qed.

Lemma store_wf_run : store_wf (exec (run top parse rt) init).
Proof.
  set (st0 := exec (_discover_files top) init).
  apply (run_preserves top parse rt
           (λ s, store_wf s ∧ project_modules s = project_modules st0)).
  - intros p s Hp [Hs Hpm]. split.
    + apply store_wf_analyze_file; [|done].
      rewrite Hpm. by apply discovered_files_are_modules.
    + by rewrite analyze_file_project_modules.
  - split; [apply store_wf_discovered | done].
Qed.

(** Every entry point comes from a discovered file, also when the pass
    stops at a raise. *)
Lemma run_entry_points_from_files e :
  e ∈ main_entry_points (exec (run top parse rt) init) →
  ∃ p, p ∈ python_files (exec (_discover_files top) init)
       ∧ e ∈ entry_point_of top parse p.
Proof.
  apply (run_preserves top parse rt
           (λ s, e ∈ main_entry_points s →
                 ∃ p, p ∈ python_files (exec (_discover_files top) init)
                      ∧ e ∈ entry_point_of top parse p)).
  - intros p s Hp Hs. rewrite analyze_file_entry_points, elem_of_app.
    intros [He|He]; [by apply Hs|]. by exists p.
  - destruct (discover_files_discovered top init)
      as (_ & _ & _ & _ & _ & -> & _).
    by intros ?%elem_of_nil.
Qed.

Lemma analyze_files_entry_points files st :
  main_entry_points (analyze_files top parse rt files st)
  = main_entry_points st ++ flat_map (entry_point_of top parse) files.
Proof.
  revert st. induction files as [|p files IH]; intros st.
  - simpl. by rewrite app_nil_r.
  - unfold analyze_files in *. simpl. rewrite IH, analyze_file_entry_points.
    by rewrite <- app_assoc.
Qed.

End StoreInvariant.

(** X6. After the pass, every set of [dependencies] is non-empty, all its
    members are project modules, and its key is a project module: a key is
    created only together with its first edge. *)
Theorem pass_records_only_real_edges top parse rt a s :
  dependencies (exec (run top parse rt) init) !! a = Some s →
  s ≠ ∅
  ∧ s ⊆ project_modules (exec (run top parse rt) init)
  ∧ a ∈ project_modules (exec (run top parse rt) init).
Proof.
  destruct (store_wf_run top parse rt) as (Hdeps & _). apply Hdeps.
Qed.

Lemma pass_records_only_real_edges_witness :
  dependencies (exec (run top_from_a parse_from_a utf8_terminal) init) !! "pkg.b"
  = Some {["pkg.a"]}
  ∧ ({["pkg.a"]} : gset string) ≠ ∅
  ∧ {["pkg.a"]} ⊆ project_modules (exec (run top_from_a parse_from_a utf8_terminal) init)
  ∧ "pkg.b" ∈ project_modules (exec (run top_from_a parse_from_a utf8_terminal) init).
Proof.
  assert (H : dependencies (exec (run top_from_a parse_from_a utf8_terminal) init) !! "pkg.b"
              = Some {["pkg.a"]}) by (vm_compute; reflexivity).
  split; [exact H|].
  exact (pass_records_only_real_edges top_from_a parse_from_a utf8_terminal
           "pkg.b" _ H).
Defined.

(** X7. The pass leaves the results of discovery alone, whether it returns
    or stops at a raise; every entry point it records is the module of a
    discovered file that can be read, parses and contains the guard, and is a
    project module; and when the warnings of all discovered files can be
    written, the entry points are, in the order of discovery, exactly the
    modules of those files. *)
Theorem pass_entry_points top parse rt :
  ((∀ p, p ∈ python_files (exec (_discover_files top) init) →
         warning_printed top parse rt p = true) →
   main_entry_points (exec (run top parse rt) init)
   = flat_map (entry_point_of top parse)
       (python_files (exec (_discover_files top) init)))
  ∧ (∀ e, e ∈ main_entry_points (exec (run top parse rt) init) →
          ∃ p content tree,
            p ∈ python_files (exec (_discover_files top) init)
            ∧ e = module_name_of p
            ∧ read_text top p = Some content
            ∧ parse content = Some tree
            ∧ Py.str_in main_guard content = true)
  ∧ project_modules (exec (run top parse rt) init)
    = project_modules (exec (_discover_files top) init)
  ∧ data_files (exec (run top parse rt) init)
    = data_files (exec (_discover_files top) init)
  ∧ (∀ e, e ∈ main_entry_points (exec (run top parse rt) init) →
          e ∈ project_modules (exec (run top parse rt) init)).
Proof.
  split; [|split; [|split; [|split]]].
  - intros Hw. unfold exec at 1. rewrite run_exec by done. simpl.
    rewrite analyze_files_entry_points.
    by destruct (discover_files_discovered top init)
      as (_ & _ & _ & _ & _ & -> & _).
  - intros e He.
    apply run_entry_points_from_files in He as (p & Hp & He).
    unfold entry_point_of, parses in He.
    destruct (read_text top p) as [content|] eqn:Hread;
      [|by apply elem_of_nil in He].
    destruct (parse content) as [tree|] eqn:Hparse;
      [|by apply elem_of_nil in He].
    destruct (Py.str_in main_guard content) eqn:Hg;
      [|by apply elem_of_nil in He].
    simpl in He. apply list_elem_of_singleton in He.
    by exists p, content, tree.
  - apply run_project_modules.
  - apply run_data_files.
  - destruct (store_wf_run top parse rt) as (_ & Hentries & _). exact Hentries.
Qed.

Lemma pass_entry_points_witness :
  ((∀ p, p ∈ python_files (exec (_discover_files top_main) init) →
         warning_printed top_main parse_main utf8_terminal p = true)
   ∧ main_entry_points (exec (run top_main parse_main utf8_terminal) init)
     = flat_map (entry_point_of top_main parse_main)
         (python_files (exec (_discover_files top_main) init))
   ∧ main_entry_points (exec (run top_main parse_main utf8_terminal) init)
     = ["m"])
  ∧ "m" ∈ main_entry_points (exec (run top_main parse_main utf8_terminal) init)
  ∧ "m" ∈ project_modules (exec (run top_main parse_main utf8_terminal) init)
  ∧ ∃ p content tree,
      p ∈ python_files (exec (_discover_files top_main) init)
      ∧ "m" = module_name_of p
      ∧ read_text top_main p = Some content
      ∧ parse_main content = Some tree
      ∧ Py.str_in main_guard content = true.
Proof.
  assert (H : "m" ∈ main_entry_points
                      (exec (run top_main parse_main utf8_terminal) init)).
  { vm_compute. apply elem_of_cons. by left. }
  assert (Hw : ∀ p, p ∈ python_files (exec (_discover_files top_main) init) →
                    warning_printed top_main parse_main utf8_terminal p = true).
  { intros p Hp. vm_compute in Hp.
    repeat (apply elem_of_cons in Hp as [->|Hp]; [reflexivity|]).
    by apply elem_of_nil in Hp. }
  destruct (pass_entry_points top_main parse_main utf8_terminal)
    as (Heq & Hfrom & _ & _ & Hin).
  split; [|split; [exact H | split; [exact (Hin "m" H) | exact (Hfrom "m" H)]]].
  split; [exact Hw|]. split; [exact (Heq Hw) | reflexivity].
Defined.

(** ** The average complexity after the pass *)

Section Average.

Lemma list_sum_at_least {A} (f : A → nat) (l : list A) :
  (∀ x, x ∈ l → 1 ≤ f x) → length l ≤ list_sum (map f l).
Proof.
  induction l as [|x l IH]; intros Hall; [done|].
  simpl. assert (1 ≤ f x) by (apply Hall, elem_of_cons; by left).
  assert (length l ≤ list_sum (map f l)).
  { apply IH. intros y Hy. apply Hall, elem_of_cons. by right. }
  lia.
Qed.

Lemma total_complexity_at_least st :
  (∀ key r, functions st !! key = Some r → 1 ≤ complexity r) →
  size (functions st)
  ≤ list_sum (map (λ kv, complexity (snd kv)) (map_to_list (functions st))).
Proof.
  intros Hfuns. rewrite <- length_map_to_list.
  apply list_sum_at_least. intros [key r] Hin. simpl.
  apply elem_of_map_to_list in Hin. by apply (Hfuns key).
Qed.

Lemma quotient_at_least a k :
  S k ≤ a → (1 <= Z.of_nat a # Pos.of_nat (S k))%Q.
Proof.
  intros Hab. unfold Qle. simpl Qnum. simpl Qden.
  rewrite <- (positive_nat_Z (Pos.of_nat (S k))), Nat2Pos.id by done. lia.
Qed.

End Average.

(** X8. Every function record left by the pass has a complexity of at least
    1, so the average reported by [generate_summary_stats] is the integer 0
    when no function was recorded and a quotient of at least 1 otherwise. *)
Theorem pass_average_at_least_one top parse rt :
  (∀ key r, functions (exec (run top parse rt) init) !! key = Some r →
            1 ≤ complexity r)
  ∧ ((size (functions (exec (run top parse rt) init)) = 0
      ∧ fst (avg_complexity (exec (run top parse rt) init)) = Returned (PyInt 0))
     ∨ ∃ q, fst (avg_complexity (exec (run top parse rt) init))
            = Returned (PyFloat q)
            ∧ (1 <= q)%Q).
Proof.
  destruct (store_wf_run top parse rt) as (_ & _ & Hfuns).
  split; [exact Hfuns|].
  set (st := exec (run top parse rt) init) in *.
  unfold avg_complexity, bind, get.
  destruct (size (functions st)) as [|k] eqn:Hsize; [by left|].
  right. eexists. split; [reflexivity|].
  apply quotient_at_least. rewrite <- Hsize.
  by apply total_complexity_at_least.
Qed.

Lemma pass_average_at_least_one_witness :
  functions (exec (run Scenario.top Scenario.parse utf8_terminal) init) !! "pkg.a.f"
  = Some {| complexity := 2 |}
  ∧ 1 ≤ complexity {| complexity := 2 |}.
Proof.
  assert (H : functions (exec (run Scenario.top Scenario.parse utf8_terminal) init) !! "pkg.a.f"
              = Some {| complexity := 2 |}) by (vm_compute; reflexivity).
  split; [exact H|].
  destruct (pass_average_at_least_one Scenario.top Scenario.parse utf8_terminal)
    as (Hfuns & _).
  exact (Hfuns "pkg.a.f" _ H).
Defined.

(** ** Edges as a set *)

Section EdgeSet.

Lemma auditor_eq st st' :
  python_files st = python_files st' → project_modules st = project_modules st' →
  functions st = functions st' → classes st = classes st' →
  main_entry_points st = main_entry_points st' →
  dependencies st = dependencies st' → data_files st = data_files st' →
  st = st'.
Proof. destruct st, st'. simpl. by intros -> -> -> -> -> -> ->. Qed.

Lemma add_edge_idemp a b st : add_edge a b (add_edge a b st) = add_edge a b st.
Proof.
  apply auditor_eq; try done. simpl.
  rewrite lookup_insert_eq, insert_insert_eq. simpl. f_equal. set_solver.
Qed.

Lemma add_edge_comm a1 b1 a2 b2 st :
  add_edge a1 b1 (add_edge a2 b2 st) = add_edge a2 b2 (add_edge a1 b1 st).
Proof.
  apply auditor_eq; try done. simpl.
  destruct (decide (a1 = a2)) as [->|Hne].
  - rewrite !lookup_insert_eq, !insert_insert_eq. simpl. f_equal. set_solver.
  - rewrite (lookup_insert_ne _ a2 a1) by done.
    rewrite (lookup_insert_ne _ a1 a2) by done.
    by apply insert_insert_ne.
Qed.

Lemma known_module_add_edge a b st r :
  known_module (add_edge a b st) r = known_module st r.
Proof. reflexivity. Qed.

End EdgeSet.

(** X9. Edges form a set: resolving the same import twice changes nothing
    more than resolving it once, and the order in which two imports are
    resolved does not matter for the resulting state. *)
Theorem add_dependency_idempotent_commutative st :
  (∀ a d lv,
     exec (_add_dependency a d lv) (exec (_add_dependency a d lv) st)
     = exec (_add_dependency a d lv) st)
  ∧ (∀ a1 d1 lv1 a2 d2 lv2,
       exec (_add_dependency a1 d1 lv1) (exec (_add_dependency a2 d2 lv2) st)
       = exec (_add_dependency a2 d2 lv2) (exec (_add_dependency a1 d1 lv1) st)).
Proof.
  split.
  - intros a d lv. rewrite !exec_add_dependency.
    destruct (known_module st (resolved_dep a d lv)) eqn:Hk.
    + rewrite known_module_add_edge, Hk. apply add_edge_idemp.
    + by rewrite Hk.
  - intros a1 d1 lv1 a2 d2 lv2. rewrite !exec_add_dependency.
    destruct (known_module st (resolved_dep a1 d1 lv1)) eqn:Hk1;
      destruct (known_module st (resolved_dep a2 d2 lv2)) eqn:Hk2;
      rewrite ?known_module_add_edge, ?Hk1, ?Hk2; try done.
    apply add_edge_comm.
Qed.

(** ** The methods of a class record *)

Section ClassMethods.

Variable m : string.

Lemma defines_class_spec name n :
  defines_class name n = true
  ↔ ∃ bases body decs, n = ClassDef name bases body decs.
Proof.
  destruct n; simpl; try (split; [done | by intros (?&?&?&?)]).
  rewrite String.eqb_eq. split.
  - intros ->. eauto.
  - intros (?&?&?&H). by inversion H.
Qed.

Lemma last_class_definition name l :
  (∃ n, n ∈ l ∧ defines_class name n = true) →
  ∃ l1 n l2, l = l1 ++ n :: l2 ∧ defines_class name n = true
             ∧ ∀ n', n' ∈ l2 → defines_class name n' = false.
Proof.
  induction l as [|x l IH]; intros (n & Hn & Hd).
  - by apply elem_of_nil in Hn.
  - destruct (existsb (defines_class name) l) eqn:Hex.
    + apply existsb_exists in Hex as (n' & Hn' & Hd').
      destruct IH as (l1 & k & l2 & -> & Hk & Hl2).
      { exists n'. split; [by apply list_elem_of_In | done]. }
      exists (x :: l1), k, l2. by repeat split.
    + assert (Hnone : ∀ n', n' ∈ l → defines_class name n' = false).
      { intros n' Hn'. destruct (defines_class name n') eqn:Hd'; [|done].
        assert (existsb (defines_class name) l = true) as Habs; [|congruence].
        apply existsb_exists. exists n'. split; [by apply list_elem_of_In|done]. }
      apply elem_of_cons in Hn as [->|Hn].
      * exists [], x, l. by repeat split.
      * rewrite (Hnone n Hn) in Hd. done.
Qed.

(** The record of a class name is the one of its last definition. *)
Lemma classes_last l1 l2 st name bases body decs :
  (∀ n, n ∈ l2 → defines_class name n = false) →
  classes (analyze_nodes m (l1 ++ ClassDef name bases body decs :: l2) st)
    !! record_key m name
  = Some {| methods := method_names body; is_strategy := strategy_flag name m |}.
Proof.
  intros Hl2. rewrite analyze_nodes_app, analyze_nodes_cons.
  set (s1 := exec _ _).
  assert (Hs1 : classes s1 !! record_key m name
                = Some {| methods := method_names body;
                          is_strategy := strategy_flag name m |}).
  { unfold s1. rewrite analyze_node_classes. apply lookup_insert_eq. }
  clearbody s1. revert s1 Hs1.
  induction l2 as [|n l2 IH]; intros s1 Hs1; [done|].
  rewrite analyze_nodes_cons. apply IH.
  - intros n' Hin. apply Hl2, elem_of_cons. by right.
  - rewrite analyze_node_classes. destruct n; try done.
    rewrite lookup_insert_ne; [done|].
    intros Hk. apply record_key_inj in Hk. subst.
    assert (defines_class name (ClassDef name bases0 body0 decorator_list)
            = false) as Habs by (apply Hl2, elem_of_cons; by left).
    simpl in Habs. by rewrite String.eqb_refl in Habs.
Qed.

(** The listed methods are the function definitions directly in the body. *)
Lemma method_names_spec body x :
  x ∈ method_names body ↔ ∃ args fbody decs, FunctionDef x args fbody decs ∈ body.
Proof.
  unfold method_names. rewrite list_elem_of_In, in_flat_map. split.
  - intros (item & Hitem & Hx). apply list_elem_of_In in Hitem.
    destruct item; try (by apply list_elem_of_In, elem_of_nil in Hx).
    apply list_elem_of_In, list_elem_of_singleton in Hx as ->. eauto.
  - intros (args & fbody & decs & Hin).
    exists (FunctionDef x args fbody decs).
    split; [by apply list_elem_of_In|]. simpl. by left.
Qed.

End ClassMethods.

(** X10. After a parsed file has been analysed, the record of a class name
    that occurs in the tree holds the methods of the last class definition of
    that name in traversal order: its method list names exactly the [def]
    definitions ([ast.FunctionDef]) that are direct entries of that class
    body. Functions nested deeper are not listed, and neither is an
    [async def] method ([ast.AsyncFunctionDef]), unless a [def] of the body
    has its name. *)
Theorem class_record_methods top parse rt p content tree st name bases body decs :
  read_text top p = Some content →
  parse content = Some tree →
  in_subtree (ClassDef name bases body decs) tree →
  ∃ r l1 bases' body' decs' l2,
    classes (exec (_analyze_file top parse rt p) st)
      !! record_key (module_name_of p) name = Some r
    ∧ walk tree = l1 ++ ClassDef name bases' body' decs' :: l2
    ∧ (∀ n, n ∈ l2 → defines_class name n = false)
    ∧ methods r = method_names body'
    ∧ (∀ x, x ∈ methods r
            ↔ ∃ args fbody fdecs, FunctionDef x args fbody fdecs ∈ body')
    ∧ (∀ x, (∀ args fbody fdecs, FunctionDef x args fbody fdecs ∉ body') →
            x ∉ methods r).
Proof.
  intros Hread Hparse Hin.
  unfold exec. rewrite (analyze_file_parsed _ _ _ _ _ _ _ Hread Hparse). simpl.
  destruct (last_class_definition name (walk tree)) as (l1 & n & l2 & Hw & Hn & Hl2).
  { exists (ClassDef name bases body decs). split; [by apply elem_of_walk|].
    apply defines_class_spec. eauto. }
  apply defines_class_spec in Hn as (bases' & body' & decs' & ->).
  exists {| methods := method_names body';
            is_strategy := strategy_flag name (module_name_of p) |},
    l1, bases', body', decs', l2.
  split; [|split; [done|split; [done|split; [done|split]]]].
  - unfold analyze_tree. rewrite Hw. by apply classes_last.
  - intros x. apply method_names_spec.
  - intros x Hnone Hx. simpl in Hx.
    apply method_names_spec in Hx as (args & fbody & fdecs & Hx).
    by apply (Hnone args fbody fdecs).
Qed.

Lemma class_record_methods_witness :
  (read_text Scenario.top_dup ["mod.py"] = Some Scenario.text_dup
   ∧ Scenario.parse_dup Scenario.text_dup = Some Scenario.tree_dup
   ∧ in_subtree (ClassDef "A" [] [Scenario.def_m_A] []) Scenario.tree_dup
   ∧ ∃ r l1 bases' body' decs' l2,
       classes (exec (_analyze_file Scenario.top_dup Scenario.parse_dup
                        utf8_terminal ["mod.py"]) init)
         !! record_key (module_name_of ["mod.py"]) "A" = Some r
       ∧ walk Scenario.tree_dup = l1 ++ ClassDef "A" bases' body' decs' :: l2
       ∧ (∀ n, n ∈ l2 → defines_class "A" n = false)
       ∧ methods r = method_names body'
       ∧ (∀ x, x ∈ methods r
               ↔ ∃ args fbody fdecs, FunctionDef x args fbody fdecs ∈ body')
       ∧ (∀ x, (∀ args fbody fdecs, FunctionDef x args fbody fdecs ∉ body') →
               x ∉ methods r))
  ∧ (read_text top_cls ["cls.py"] = Some text_cls
     ∧ parse_cls text_cls = Some tree_cls
     ∧ in_subtree class_C tree_cls
     ∧ classes (exec (_analyze_file top_cls parse_cls utf8_terminal ["cls.py"])
                  init) !! "cls.C"
       = Some {| methods := ["m"]; is_strategy := false |}
     ∧ ∃ r l1 bases' body' decs' l2,
         classes (exec (_analyze_file top_cls parse_cls utf8_terminal
                          ["cls.py"]) init)
           !! record_key (module_name_of ["cls.py"]) "C" = Some r
         ∧ walk tree_cls = l1 ++ ClassDef "C" bases' body' decs' :: l2
         ∧ (∀ n, n ∈ l2 → defines_class "C" n = false)
         ∧ methods r = method_names body'
         ∧ (∀ x, x ∈ methods r
                 ↔ ∃ args fbody fdecs, FunctionDef x args fbody fdecs ∈ body')
         ∧ (∀ x, (∀ args fbody fdecs, FunctionDef x args fbody fdecs ∉ body') →
                 x ∉ methods r)).
Proof.
  assert (Hin : in_subtree (ClassDef "A" [] [Scenario.def_m_A] [])
                  Scenario.tree_dup).
  { unfold in_subtree. vm_compute. repeat constructor. }
  assert (HC : in_subtree class_C tree_cls).
  { unfold in_subtree. vm_compute. repeat constructor. }
  split.
  - split; [reflexivity|]. split; [reflexivity|]. split; [exact Hin|].
    exact (class_record_methods Scenario.top_dup Scenario.parse_dup
             utf8_terminal ["mod.py"] Scenario.text_dup Scenario.tree_dup init
             "A" [] [Scenario.def_m_A] [] eq_refl eq_refl Hin).
  - split; [reflexivity|]. split; [reflexivity|]. split; [exact HC|].
    split; [vm_compute; reflexivity|].
    exact (class_record_methods top_cls parse_cls utf8_terminal ["cls.py"]
             text_cls tree_cls init "C" [] [def_am; Scenario.def_m_A] []
             eq_refl eq_refl HC).
Defined.

(** ** Sorted listings *)

Section Sorted.

Lemma elem_of_py_sorted x l : x ∈ py_sorted l ↔ x ∈ l.
Proof. unfold py_sorted. by rewrite merge_sort_Permutation. Qed.

Lemma py_sorted_sorted l : StronglySorted String.le (py_sorted l).
Proof. apply StronglySorted_merge_sort; apply _. Qed.

Lemma py_sorted_NoDup l : NoDup l → NoDup (py_sorted l).
Proof. unfold py_sorted. by rewrite merge_sort_Permutation. Qed.

Lemma py_sorted_length l : length (py_sorted l) = length l.
Proof. unfold py_sorted. by rewrite merge_sort_Permutation. Qed.

Lemma prefix_app_r sub s t :
  String.prefix sub s = true → String.prefix sub (s +:+ t) = true.
Proof.
  revert s. induction sub as [|a sub IH]; intros s H.
  - by destruct (s +:+ t).
  - destruct s as [|b s]; [done|]. rewrite app_String. simpl in *.
    destruct (ascii_dec a b); [by apply IH | done].
Qed.

(** A substring of a text is a substring of every extension of it. *)
Lemma str_in_app_r sub s t :
  Py.str_in sub s = true → Py.str_in sub (s +:+ t) = true.
Proof.
  induction s as [|a s IH]; intros H.
  - simpl in H. rewrite orb_false_r in H.
    apply str_in_prefix. by apply (prefix_app_r sub EmptyString t).
  - simpl in H. apply orb_true_iff in H as [H|H].
    + apply str_in_prefix. by apply prefix_app_r.
    + rewrite app_String. by apply str_in_tail, IH.
Qed.

Lemma elem_of_function_keys st f :
  f ∈ map fst (map_to_list (functions st)) ↔ is_Some (functions st !! f).
Proof.
  rewrite list_elem_of_In, in_map_iff. split.
  - intros ([k r] & <- & Hin). simpl.
    apply list_elem_of_In, elem_of_map_to_list in Hin. by exists r.
  - intros [r Hr]. exists (f, r). split; [done|].
    by apply list_elem_of_In, elem_of_map_to_list.
Qed.

End Sorted.

(** X11. The entry points shown by [generate_logical_flow] are [app],
    whether or not such a module exists, and the recorded entry points,
    each once, in increasing order. *)
Theorem reported_entry_points st :
  (∀ e, e ∈ entry_points st ↔ e = "app" ∨ e ∈ main_entry_points st)
  ∧ NoDup (entry_points st)
  ∧ StronglySorted String.le (entry_points st).
Proof.
  unfold entry_points. split; [|split].
  - intros e. rewrite elem_of_py_sorted, elem_of_elements, elem_of_list_to_set.
    apply elem_of_cons.
  - apply py_sorted_NoDup, NoDup_elements.
  - apply py_sorted_sorted.
Qed.

(** X12. The key pipeline functions and the data manipulation functions are
    chosen by substrings of the whole key, module.function: a function is
    listed exactly when it has a record and its key contains one of the
    words, so every recorded function of a module whose name contains one of
    the words is listed whatever its own name; both lists are duplicate-free
    and increasing. *)
Theorem listed_functions st :
  (∀ f, f ∈ pipeline_funcs st
        ↔ is_Some (functions st !! f) ∧ is_pipeline_key f = true)
  ∧ (∀ f, f ∈ data_funcs st
          ↔ is_Some (functions st !! f) ∧ is_data_key f = true)
  ∧ (∀ m name, is_Some (functions st !! record_key m name) →
               is_pipeline_key m = true →
               record_key m name ∈ pipeline_funcs st)
  ∧ (∀ m name, is_Some (functions st !! record_key m name) →
               is_data_key m = true →
               record_key m name ∈ data_funcs st)
  ∧ NoDup (pipeline_funcs st) ∧ StronglySorted String.le (pipeline_funcs st)
  ∧ NoDup (data_funcs st) ∧ StronglySorted String.le (data_funcs st).
Proof.
  assert (Hp : ∀ f, f ∈ pipeline_funcs st
                    ↔ is_Some (functions st !! f) ∧ is_pipeline_key f = true).
  { intros f. unfold pipeline_funcs.
    rewrite elem_of_py_sorted, list_elem_of_filter, elem_of_function_keys.
    tauto. }
  assert (Hd : ∀ f, f ∈ data_funcs st
                    ↔ is_Some (functions st !! f) ∧ is_data_key f = true).
  { intros f. unfold data_funcs.
    rewrite elem_of_py_sorted, list_elem_of_filter, elem_of_function_keys.
    tauto. }
  assert (Hkeys : NoDup (map fst (map_to_list (functions st)))).
  { apply NoDup_fst_map_to_list. }
  split; [exact Hp|]. split; [exact Hd|]. split; [|split].
  - intros m name Hrec Hm. apply Hp. split; [done|].
    unfold is_pipeline_key, record_key in *.
    apply orb_true_iff in Hm as [Hm|Hm];
      [apply orb_true_iff in Hm as [Hm|Hm]|];
      rewrite (str_in_app_r _ m _ Hm); by rewrite ?orb_true_r.
  - intros m name Hrec Hm. apply Hd. split; [done|].
    unfold is_data_key, record_key in *.
    apply existsb_exists in Hm as (w & Hw & Hm).
    apply existsb_exists. exists w. split; [done|]. by apply str_in_app_r.
  - split; [|split; [|split]].
    + by apply py_sorted_NoDup, NoDup_filter.
    + apply py_sorted_sorted.
    + by apply py_sorted_NoDup, NoDup_filter.
    + apply py_sorted_sorted.
Qed.

Lemma listed_functions_witness :
  is_Some (functions (set_function "runner.helper" {| complexity := 1 |} init)
             !! record_key "runner" "helper")
  ∧ is_pipeline_key "runner" = true
  ∧ is_pipeline_key "helper" = false
  ∧ record_key "runner" "helper"
      ∈ pipeline_funcs (set_function "runner.helper" {| complexity := 1 |} init).
Proof.
  assert (H : is_Some (functions
                         (set_function "runner.helper" {| complexity := 1 |} init)
                         !! record_key "runner" "helper")).
  { by eexists. }
  split; [exact H|]. split; [reflexivity|]. split; [reflexivity|].
  destruct (listed_functions
              (set_function "runner.helper" {| complexity := 1 |} init))
    as (_ & _ & Hm & _).
  exact (Hm "runner" "helper" H eq_refl).
Defined.

(** ** The architecture overview *)

Section Architecture.

Lemma add_to_component_lookup comps m c :
  add_to_component comps m !! c
  = if decide (component_of m = c)
    then Some (default [] (comps !! c) ++ [m])
    else comps !! c.
Proof.
  unfold add_to_component. rewrite lookup_insert.
  case_decide; [by subst | done].
Qed.

(** The list of a component after the loop: what it held, then the modules
    of that component in the order of the iteration. *)
Lemma components_fold ms comps c :
  fold_left add_to_component ms comps !! c
  = match filter (λ m, component_of m = c) ms with
    | [] => comps !! c
    | x :: rest => Some (default [] (comps !! c) ++ x :: rest)
    end.
Proof.
  revert comps. induction ms as [|m ms IH]; intros comps; [done|].
  simpl. rewrite IH, filter_cons, add_to_component_lookup.
  destruct (decide (component_of m = c)) as [Hm|Hm]; [|done].
  destruct (filter _ ms) as [|x rest]; simpl; [done|].
  by rewrite <- app_assoc.
Qed.

Lemma architecture_components_lookup st c :
  architecture_components st !! c
  = match filter (λ m, component_of m = c) (elements (project_modules st)) with
    | [] => None
    | x :: rest => Some (x :: rest)
    end.
Proof.
  unfold architecture_components. rewrite components_fold, lookup_empty.
  by destruct (filter _ _).
Qed.

Lemma architecture_components_spec st c l :
  architecture_components st !! c = Some l →
  l ≠ [] ∧ NoDup l
  ∧ ∀ m, m ∈ l ↔ m ∈ project_modules st ∧ component_of m = c.
Proof.
  rewrite architecture_components_lookup.
  destruct (filter _ _) as [|x rest] eqn:Hf; [done|]. intros [= <-].
  split; [done|]. rewrite <- Hf. split.
  - apply NoDup_filter, NoDup_elements.
  - intros m. rewrite list_elem_of_filter, elem_of_elements. tauto.
Qed.

Lemma prefix_same_head a p b q s :
  String.prefix (String a p) s = true → String.prefix (String b q) s = true →
  a = b.
Proof.
  destruct s as [|c s]; [done|]. simpl.
  destruct (ascii_dec a c) as [->|]; [|done].
  by destruct (ascii_dec b c) as [->|].
Qed.

End Architecture.

(** X13. The architecture overview is a partition of the project modules:
    each section is non-empty, reports the number of its modules, lists them
    once each in increasing order, and holds exactly the project modules of
    its component; every project module is in the section of its
    component; and the sections come in increasing order of their names,
    without repetition. *)
Theorem architecture_overview_partition st :
  (∀ name k modules,
     (name, k, modules) ∈ architecture_sections st →
     k = length modules ∧ 0 < k
     ∧ NoDup modules ∧ StronglySorted String.le modules
     ∧ ∀ m, m ∈ modules ↔ m ∈ project_modules st ∧ component_of m = name)
  ∧ (∀ m, m ∈ project_modules st →
          ∃ k modules,
            (component_of m, k, modules) ∈ architecture_sections st
            ∧ m ∈ modules)
  ∧ NoDup (map (λ sec, fst (fst sec)) (architecture_sections st))
  ∧ StronglySorted String.le
      (map (λ sec, fst (fst sec)) (architecture_sections st)).
Proof.
  split; [|split; [|split]].
  - intros name k modules Hin. unfold architecture_sections in Hin.
    apply list_elem_of_In, in_map_iff in Hin as (c & [= <- <- <-] & Hc).
    apply list_elem_of_In, elem_of_py_sorted, elem_of_elements, elem_of_dom
      in Hc as [l Hl].
    rewrite Hl. simpl.
    destruct (architecture_components_spec st c l Hl) as (Hne & Hnd & Hmem).
    rewrite py_sorted_length. split; [done|]. split.
    { destruct l; [done | simpl; lia]. }
    split; [by apply py_sorted_NoDup|]. split; [apply py_sorted_sorted|].
    intros m. by rewrite elem_of_py_sorted.
  - intros m Hm.
    destruct (architecture_components st !! component_of m) as [l|] eqn:Hl.
    + exists (length l), (py_sorted l). split.
      * unfold architecture_sections.
        apply list_elem_of_In, in_map_iff. exists (component_of m).
        rewrite Hl. split; [done|].
        apply list_elem_of_In, elem_of_py_sorted, elem_of_elements, elem_of_dom.
        by exists l.
      * apply elem_of_py_sorted.
        by apply (architecture_components_spec st _ l Hl).
    + rewrite architecture_components_lookup in Hl.
      assert (m ∈ filter (λ m', component_of m' = component_of m)
                    (elements (project_modules st))) as Habs.
      { apply list_elem_of_filter. split; [done|]. by apply elem_of_elements. }
      destruct (filter _ _); [by apply elem_of_nil in Habs | done].
  - unfold architecture_sections. rewrite map_map. simpl. rewrite map_id.
    apply py_sorted_NoDup, NoDup_elements.
  - unfold architecture_sections. rewrite map_map. simpl. rewrite map_id.
    apply py_sorted_sorted.
Qed.

Lemma architecture_overview_partition_witness :
  ("pkg.a" ∈ project_modules only_pkg_a)
  ∧ ∃ k modules,
      (component_of "pkg.a", k, modules) ∈ architecture_sections only_pkg_a
      ∧ "pkg.a" ∈ modules.
Proof.
  assert (H : "pkg.a" ∈ project_modules only_pkg_a) by (vm_compute; set_solver).
  split; [exact H|].
  destruct (architecture_overview_partition only_pkg_a) as (_ & Hall & _).
  exact (Hall "pkg.a" H).
Defined.

(** X14. The tests of the overview are tried in order, so the substring
    tests for [pipeline] and [run] win over the later prefix tests: a module
    is listed under Tests exactly when its name starts with [tests] and
    contains neither word, under Main Entry Point exactly when it is named
    [app], and a module that contains [pipeline] or [run] is Business Logic
    unless its name starts with [pages] or [src.strategies]. *)
Theorem architecture_overview_precedence module :
  (component_of module = "✅ Tests"
   ↔ Py.startswith module "tests" = true
     ∧ Py.str_in "pipeline" module = false ∧ Py.str_in "run" module = false)
  ∧ (component_of module = "🚀 Main Entry Point" ↔ module = "app")
  ∧ (Py.str_in "pipeline" module || Py.str_in "run" module = true →
     Py.startswith module "pages" = false →
     Py.startswith module "src.strategies" = false →
     component_of module = "⚙️ Business Logic / Pipelines").
Proof.
  unfold component_of, Py.startswith. split; [|split].
  - split.
    + destruct (String.prefix "pages" module); [done|].
      destruct (String.prefix "src.strategies" module); [done|].
      destruct (Py.str_in "pipeline" module); [done|].
      destruct (Py.str_in "run" module); [done|]. simpl.
      destruct (String.prefix "src.models" module); [done|].
      destruct (String.prefix "src.schemas" module); [done|]. simpl.
      destruct (String.prefix "src.data_" module); [done|].
      destruct (String.prefix "src.utils" module); [done|].
      destruct (String.prefix "src.config" module); [done|].
      destruct (String.prefix "tests" module); [done|].
      by destruct (String.eqb module "app").
    + intros (Ht & -> & ->).
      assert (Hother : ∀ b q, b ≠ "t"%char →
                String.prefix (String b q) module = false).
      { intros b q Hb. destruct (String.prefix (String b q) module) eqn:Hp; [|done].
        destruct Hb. symmetry. exact (prefix_same_head _ _ _ _ _ Ht Hp). }
      rewrite !Hother by done. simpl. by rewrite Ht.
  - split.
    + destruct (String.prefix "pages" module); [done|].
      destruct (String.prefix "src.strategies" module); [done|].
      destruct (Py.str_in "pipeline" module || Py.str_in "run" module); [done|].
      destruct (String.prefix "src.models" module
                || String.prefix "src.schemas" module); [done|].
      destruct (String.prefix "src.data_" module); [done|].
      destruct (String.prefix "src.utils" module); [done|].
      destruct (String.prefix "src.config" module); [done|].
      destruct (String.prefix "tests" module); [done|].
      destruct (String.eqb_spec module "app"); done.
    + by intros ->.
  - by intros -> -> ->.
Qed.

Lemma architecture_overview_precedence_witness :
  (Py.str_in "pipeline" "tests.test_run" || Py.str_in "run" "tests.test_run"
   = true
   ∧ Py.startswith "tests.test_run" "pages" = false
   ∧ Py.startswith "tests.test_run" "src.strategies" = false)
  ∧ component_of "tests.test_run" = "⚙️ Business Logic / Pipelines".
Proof.
  split; [by repeat split|].
  destruct (architecture_overview_precedence "tests.test_run") as (_ & _ & H).
  exact (H eq_refl eq_refl eq_refl).
Defined.

(** ** The table of strategies *)

Section Strategies.

Lemma elem_of_strategies st s :
  s ∈ strategies st ↔ ∃ r, classes st !! s = Some r ∧ is_strategy r = true.
Proof.
  unfold strategies. rewrite list_elem_of_In, in_map_iff. split.
  - intros ([k r] & <- & Hin). simpl.
    apply list_elem_of_In, list_elem_of_filter in Hin as [Hflag Hin].
    apply elem_of_map_to_list in Hin. by exists r.
  - intros (r & Hr & Hflag). exists (s, r). split; [done|].
    apply list_elem_of_In, list_elem_of_filter. split; [done|].
    by apply elem_of_map_to_list.
Qed.

Lemma slice_to_short {A} (k : nat) (l : list A) :
  length l ≤ k → Py.slice_to (Z.of_nat k) l = l.
Proof.
  intros Hlen. unfold Py.slice_to.
  destruct (Z.ltb_spec (Z.of_nat k) 0) as [?|_]; [lia|].
  rewrite Nat2Z.id. by apply take_ge.
Qed.

End Strategies.

(** X15. The table of strategies has one row per class record flagged as a
    strategy, in increasing order of the keys; the cell of a row lists all
    the methods of the class when there are at most four, and the first four
    followed by an ellipsis otherwise. *)
Theorem strategy_table st :
  (∀ s, s ∈ strategies st
        ↔ ∃ r, classes st !! s = Some r ∧ is_strategy r = true)
  ∧ map fst (strategy_rows st)
    = map (λ s, "`" +:+ s +:+ "`") (py_sorted (strategies st))
  ∧ (∀ s r, classes st !! s = Some r → is_strategy r = true →
            ("`" +:+ s +:+ "`", key_methods (methods r)) ∈ strategy_rows st)
  ∧ (∀ ms, length ms ≤ 4 → key_methods ms = Py.join ", " ms)
  ∧ (∀ ms, 4 < length ms →
           key_methods ms = Py.join ", " (take 4 ms) +:+ "...").
Proof.
  split; [apply elem_of_strategies|]. split; [|split; [|split]].
  - unfold strategy_rows. by rewrite map_map.
  - intros s r Hr Hflag. unfold strategy_rows.
    apply list_elem_of_In, in_map_iff. exists s. rewrite Hr. split; [done|].
    apply list_elem_of_In, elem_of_py_sorted, elem_of_strategies. by exists r.
  - intros ms Hlen. unfold key_methods.
    change 4%Z with (Z.of_nat 4). rewrite (slice_to_short 4 ms Hlen).
    destruct (Nat.ltb_spec 4 (length ms)) as [?|_]; [lia|].
    apply app_empty_r.
  - intros ms Hlen. unfold key_methods.
    by destruct (Nat.ltb_spec 4 (length ms)) as [_|?]; [|lia].
Qed.

Lemma strategy_table_witness :
  (length ["fit"; "run"] ≤ 4
   ∧ key_methods ["fit"; "run"] = Py.join ", " ["fit"; "run"])
  ∧ (4 < length ["a"; "b"; "c"; "d"; "e"]
     ∧ key_methods ["a"; "b"; "c"; "d"; "e"]
       = Py.join ", " (take 4 ["a"; "b"; "c"; "d"; "e"]) +:+ "...")
  ∧ key_methods ["a"; "b"; "c"; "d"; "e"] = "a, b, c, d...".
Proof.
  destruct (strategy_table init) as (_ & _ & _ & Hshort & Hlong).
  split; [split; [simpl; lia | apply Hshort; simpl; lia]|].
  split; [split; [simpl; lia | apply Hlong; simpl; lia]|].
  reflexivity.
Defined.

(** ** The textual dependency report *)

(** X16. In the dependency report of a pass, every module shown has at least
    one dependency: its list is the sorted list of its recorded targets, all
    of them project modules, and the placeholder for a module without
    internal dependencies is never shown. *)
Theorem dependency_report_has_no_placeholder top parse rt module items :
  (module, items) ∈ dependency_report (exec (run top parse rt) init) →
  items
  = map (λ d, "`" +:+ d +:+ "`")
      (py_sorted (elements (deps_of (exec (run top parse rt) init) module)))
  ∧ items ≠ []
  ∧ ("(No internal dependencies)" ∉ items)
  ∧ ∀ d, d ∈ deps_of (exec (run top parse rt) init) module →
         d ∈ project_modules (exec (run top parse rt) init).
Proof.
  set (st := exec (run top parse rt) init). intros Hin.
  unfold dependency_report in Hin.
  apply list_elem_of_In, in_map_iff in Hin as (k & [= <- <-] & Hk).
  apply list_elem_of_In, elem_of_py_sorted, elem_of_elements, elem_of_dom
    in Hk as [s Hs].
  destruct (store_wf_run top parse rt) as (Hdeps & _).
  destruct (Hdeps k s Hs) as (Hne & Hsub & _). fold st in Hsub.
  unfold dependency_items, deps_of. rewrite Hs. simpl.
  rewrite decide_False by done.
  split; [done|]. split; [|split].
  - destruct (py_sorted (elements s)) as [|x l] eqn:Hl; [|done].
    assert (elements s ≡ₚ []) as Hnil
      by (rewrite <- Hl; unfold py_sorted; by rewrite merge_sort_Permutation).
    apply Permutation_nil_r, elements_empty_inv in Hnil.
    by apply leibniz_equiv in Hnil.
  - intros Habs. apply list_elem_of_In, in_map_iff in Habs as (d & Hd & _).
    discriminate Hd.
  - intros d Hd. by apply Hsub.
Qed.

Lemma dependency_report_has_no_placeholder_witness :
  ("pkg.b", ["`pkg.a`"])
    ∈ dependency_report (exec (run top_from_a parse_from_a utf8_terminal) init)
  ∧ dependency_report (exec (run top_from_a parse_from_a utf8_terminal) init)
    = [("pkg.b", ["`pkg.a`"])]
  ∧ ("(No internal dependencies)" ∉ ["`pkg.a`"]).
Proof.
  assert (H : ("pkg.b", ["`pkg.a`"])
                ∈ dependency_report (exec (run top_from_a parse_from_a utf8_terminal) init)).
  { vm_compute. apply elem_of_cons. by left. }
  split; [exact H|]. split; [reflexivity|].
  by destruct (dependency_report_has_no_placeholder top_from_a parse_from_a
                 utf8_terminal "pkg.b" ["`pkg.a`"] H) as (_ & _ & Hno & _).
Defined.
